(** * Threads SDK: container polling, publishing and the rate limiter

    A shallow embedding of the blocking posts client
    ([threads/_sync/posts.py], [threads/_base/posts.py]), of the media
    container model ([threads/models/media.py], [threads/constants.py]),
    of the validators ([threads/_utils/validators.py]), of the error
    classifier ([threads/exceptions.py]) and of the sliding-window rate
    limiter ([threads/_utils/rate_limit.py]).

    Python code that raises is a computation returning [inl exception];
    code that talks to the HTTP transport, reads the clock or sleeps
    threads a [World] through. Times are seconds as rationals. *)

From Stdlib Require Import List String Ascii ZArith QArith Lqa Lia Bool.
Import ListNotations.
Local Open Scope string_scope.
Set Warnings "-register-all".

(* ------------------------------------------------------------------ *)
(** ** Python values *)

(** What [response.json()] can return. A number is kept as a rational:
    Python compares [190.0 == 190] as equal. [JNull] is [None]. *)
Inductive json : Type :=
| JNull
| JBool (b : bool)
| JNum (q : Q)
| JStr (s : string)
| JArr (items : list json)
| JObj (fields : list (string * json)).

(** A formatted string, kept as its parts: literal text (and [str]
    values, which format to themselves), a formatted non-string value,
    and a set of strings joined in the set's iteration order. *)
Inductive fpart : Type :=
| Lit (s : string)
| Val (v : json)
| JoinSet (sep : string) (elems : list string).

Definition fstring := list fpart.

(** [f"{v}"] for a value that came out of a JSON body. *)
Definition fmt_val (v : json) : fpart :=
  match v with
  | JStr s => Lit s
  | _ => Val v
  end.

(** [f"{v}"] for [v : str | None]. *)
Definition fmt_opt (v : option string) : fpart :=
  match v with
  | Some s => Lit s
  | None => Lit "None"
  end.

(** Truthiness of a [str | None]. *)
Definition truthy (v : option string) : bool :=
  match v with
  | Some s => negb (s =? "")
  | None => false
  end.

Definition Qlt_bool (a b : Q) : bool := negb (Qle_bool b a).

(* ------------------------------------------------------------------ *)
(** ** [threads/constants.py] *)

Inductive MediaType := TEXT | TEXT_POST | IMAGE | VIDEO | CAROUSEL | CAROUSEL_ALBUM.

Inductive ReplyControl := EVERYONE | ACCOUNTS_YOU_FOLLOW | MENTIONED_ONLY.

Inductive ContainerStatus := EXPIRED | ERROR | FINISHED | IN_PROGRESS | PUBLISHED.

Module MediaType_.
Definition value (m : MediaType) : string :=
  match m with
  | TEXT => "TEXT"
  | TEXT_POST => "TEXT_POST"
  | IMAGE => "IMAGE"
  | VIDEO => "VIDEO"
  | CAROUSEL => "CAROUSEL"
  | CAROUSEL_ALBUM => "CAROUSEL_ALBUM"
  end.

Definition eqb (a b : MediaType) : bool := value a =? value b.
End MediaType_.

Module ReplyControl_.
Definition value (r : ReplyControl) : string :=
  match r with
  | EVERYONE => "EVERYONE"
  | ACCOUNTS_YOU_FOLLOW => "ACCOUNTS_YOU_FOLLOW"
  | MENTIONED_ONLY => "MENTIONED_ONLY"
  end.
End ReplyControl_.

Module ContainerStatus_.
Definition value (s : ContainerStatus) : string :=
  match s with
  | EXPIRED => "EXPIRED"
  | ERROR => "ERROR"
  | FINISHED => "FINISHED"
  | IN_PROGRESS => "IN_PROGRESS"
  | PUBLISHED => "PUBLISHED"
  end.

Definition members : list ContainerStatus :=
  [EXPIRED; ERROR; FINISHED; IN_PROGRESS; PUBLISHED].

(** [ContainerStatus(s)]: the member whose value is [s]; [None] where
    Python raises [ValueError]. *)
Definition of_value (s : string) : option ContainerStatus :=
  find (fun m => value m =? s) members.

(** [a == b] on members of the string enumeration. *)
Definition eqb (a b : ContainerStatus) : bool := value a =? value b.
End ContainerStatus_.

(* ------------------------------------------------------------------ *)
(** ** [threads/exceptions.py] and the built-in exceptions met *)

Inductive APIErrorClass :=
| ThreadsAPIError
| AuthenticationError
| AuthorizationError
| RateLimitError
| NotFoundError.

Inductive Exception : Type :=
| APIError (cls : APIErrorClass) (message : json) (status_code : Z)
           (error_code error_subcode fbtrace_id : json)
| ContainerError (message : fstring)
| ValidationError (message : fstring)
| HTTPError                 (* raised by the httpx transport *)
| JSONDecodeError           (* [response.json()] on a body that is not JSON *)
| PydanticValidationError   (* pydantic's own ValidationError *)
| KeyError (key : string)
| TypeError
| AttributeError
| ValueError
| IndexError
| Unreachable.              (* the loop bound of the model, never raised *)

Definition Result (A : Type) : Type := (Exception + A)%type.

(** Whether [str(e)] raises. [ThreadsAPIError.__str__] joins the message
    with the other parts, and [" | ".join] refuses a first part that is
    not a string; every other exception here formats without harm. *)
Definition str_raises (e : Exception) : bool :=
  match e with
  | APIError _ (JStr _) _ _ _ _ => false
  | APIError _ _ _ _ _ _ => true
  | _ => false
  end.

Fixpoint assoc {A : Type} (key : string) (d : list (string * A)) : option A :=
  match d with
  | [] => None
  | (k, v) :: rest => if k =? key then Some v else assoc key rest
  end.

(** [d.get(key, default)]: only a dict has [get]. *)
Definition dict_get (d : json) (key : string) (default : json) : Result json :=
  match d with
  | JObj fields =>
      match assoc key fields with
      | Some v => inr v
      | None => inr default
      end
  | _ => inl AttributeError
  end.

(** [d[key]] with a string key. *)
Definition getitem (d : json) (key : string) : Result json :=
  match d with
  | JObj fields =>
      match assoc key fields with
      | Some v => inr v
      | None => inl (KeyError key)
      end
  | _ => inl TypeError
  end.

(** [code in (c1, c2, ...)] for integer literals. *)
Definition code_in (code : json) (codes : list Z) : bool :=
  match code with
  | JNum q => existsb (fun c => Qeq_bool q (inject_Z c)) codes
  | JBool b => existsb (fun c => (c =? (if b then 1 else 0))%Z) codes
  | _ => false
  end.

(** [raise_for_error] never returns; the value is the exception raised. *)
Definition raise_for_error (response_data : json) (status_code : Z) : Exception :=
  match dict_get response_data "error" (JObj []) with
  | inl e => e
  | inr error =>
      match dict_get error "message" (JStr "Unknown error"),
            dict_get error "code" JNull,
            dict_get error "error_subcode" JNull,
            dict_get error "fbtrace_id" JNull with
      | inr message, inr error_code, inr error_subcode, inr fbtrace_id =>
          let cls :=
            if (status_code =? 401)%Z || code_in error_code [190; 102]%Z
            then AuthenticationError
            else if (status_code =? 403)%Z || code_in error_code [10; 200; 294]%Z
            then AuthorizationError
            else if (status_code =? 429)%Z || code_in error_code [4; 17; 32; 613]%Z
            then RateLimitError
            else if (status_code =? 404)%Z
            then NotFoundError
            else ThreadsAPIError in
          APIError cls message status_code error_code error_subcode fbtrace_id
      | _, _, _, _ => AttributeError
      end
  end.

(* ------------------------------------------------------------------ *)
(** ** The world: transport, clock, sleep *)

Inductive Method := GET | POST | DELETE.

Record Request := {
  method : Method;
  url : fstring;
  params : list (string * json)
}.

Record Response := {
  status_code : Z;
  body : option json   (* [None]: the body is not JSON *)
}.

(** What the transport will answer to the next call: after [latency]
    seconds either a response or, for [None], an exception of its own. *)
Record Reply := {
  latency : Q;
  response : option Response
}.

(** [pending] are the answers still to come, in order; when none is left
    the transport fails. [trace] lists the calls made so far, oldest
    first, each with the response it got. [clock] is what [time.time()]
    reads: it moves by the latency of a call and by the length of a
    sleep, and by nothing else. *)
Record World := {
  clock : Q;
  pending : list Reply;
  trace : list (Request * option Response)
}.

Definition M (A : Type) : Type := World -> Result A * World.

Definition ret {A : Type} (a : A) : M A := fun w => (inr a, w).

Definition raise {A : Type} (e : Exception) : M A := fun w => (inl e, w).

Definition bind {A B : Type} (c : M A) (k : A -> M B) : M B :=
  fun w =>
    match c w with
    | (inl e, w') => (inl e, w')
    | (inr a, w') => k a w'
    end.

Definition lift {A : Type} (r : Result A) : M A := fun w => (r, w).

(** [try: c  except Exception: handler]. *)
Definition try_except {A : Type} (c : M A) (handler : Exception -> M A) : M A :=
  fun w =>
    match c w with
    | (inl e, w') => handler e w'
    | (inr a, w') => (inr a, w')
    end.

Notation "x <- c ;; k" := (bind c (fun x => k))
  (at level 61, c at next level, right associativity).
Notation "c ;;; k" := (bind c (fun _ => k))
  (at level 61, right associativity).

Definition http_request (req : Request) : M Response :=
  fun w =>
    match pending w with
    | [] =>
        (inl HTTPError,
         {| clock := clock w; pending := []; trace := trace w ++ [(req, None)] |})
    | r :: rest =>
        let w' := {| clock := clock w + latency r;
                     pending := rest;
                     trace := trace w ++ [(req, response r)] |} in
        match response r with
        | Some resp => (inr resp, w')
        | None => (inl HTTPError, w')
        end
    end.

(** [response.json()]. *)
Definition Response_json (r : Response) : Result json :=
  match body r with
  | Some data => inr data
  | None => inl JSONDecodeError
  end.

(** [time.time()]. *)
Definition time_time : M Q := fun w => (inr (clock w), w).

(** [time.sleep(secs)]: a negative length raises [ValueError]. *)
Definition time_sleep (secs : Q) : M unit :=
  fun w =>
    if Qlt_bool secs 0 then (inl ValueError, w)
    else (inr tt, {| clock := clock w + secs; pending := pending w; trace := trace w |}).

(** The calls made between two worlds. *)
Definition calls_since (w w' : World) : list (Request * option Response) :=
  skipn (List.length (trace w)) (trace w').

(* ------------------------------------------------------------------ *)
(** ** [threads/models/media.py] *)

Module MediaContainer.
Record t := { id : string }.

(** [MediaContainer(id=v)]: pydantic wants a [str]. *)
Definition make (v : json) : Result t :=
  match v with
  | JStr s => inr {| id := s |}
  | _ => inl PydanticValidationError
  end.
End MediaContainer.

Module MediaContainerStatus.
Record t := {
  id : string;
  status : ContainerStatus;
  error_message : option string
}.

Definition is_ready (self : t) : bool :=
  ContainerStatus_.eqb (status self) FINISHED.

Definition has_error (self : t) : bool :=
  ContainerStatus_.eqb (status self) ERROR.

(** [MediaContainerStatus.model_validate(data)], by the declared fields:
    [id: str] and [status: ContainerStatus] are required, the status
    must be the value of a member; [error_message: str | None = None];
    other keys are ignored. *)
Definition model_validate (data : json) : Result t :=
  match data with
  | JObj fields =>
      match assoc "id" fields, assoc "status" fields with
      | Some (JStr i), Some (JStr s) =>
          match ContainerStatus_.of_value s with
          | Some st =>
              match assoc "error_message" fields with
              | None | Some JNull =>
                  inr {| id := i; status := st; error_message := None |}
              | Some (JStr m) =>
                  inr {| id := i; status := st; error_message := Some m |}
              | Some _ => inl PydanticValidationError
              end
          | None => inl PydanticValidationError
          end
      | _, _ => inl PydanticValidationError
      end
  | _ => inl PydanticValidationError
  end.
End MediaContainerStatus.

(* ------------------------------------------------------------------ *)
(** ** [threads/_base/client.py] *)

Record Client := { access_token : string }.

(** [d[key] = v] on a dict kept as its items in insertion order: a key
    already there keeps its place and takes the new value, a new key
    goes to the end. *)
Fixpoint dict_set (key : string) (v : json) (d : list (string * json))
  : list (string * json) :=
  match d with
  | [] => [(key, v)]
  | (k, old) :: rest =>
      if k =? key then (k, v) :: rest else (k, old) :: dict_set key v rest
  end.

(** [d.update({k: v for k, v in extra.items() if v is not None})]. *)
Fixpoint dict_update (d : list (string * json)) (extra : list (string * option json))
  : list (string * json) :=
  match extra with
  | [] => d
  | (k, Some v) :: rest => dict_update (dict_set k v d) rest
  | (k, None) :: rest => dict_update d rest
  end.

(** [BaseSubClient._get_params] with keyword arguments [extra]: a dict
    that starts with the access token and is updated with every extra
    argument that is not [None]; a keyword named [access_token]
    replaces the token. *)
Definition _get_params (self : Client) (extra : list (string * option json))
  : list (string * json) :=
  dict_update [("access_token", JStr (access_token self))] extra.

Definition opt_str (v : option string) : option json := option_map JStr v.

(* ------------------------------------------------------------------ *)
(** ** The media client's status call *)

(** Modelled from the spec: the blocking media client
    ([threads/_sync/media.py]) is not in the tree. Section 6 gives
    [getContainerStatus(containerId) -> ContainerStatusSnapshot | Error],
    one transport call decoded into a snapshot, with the error
    classifier consulted whenever the status code is not 200; the body
    below is the one of the non-blocking twin
    ([AsyncMediaClient.get_container_status] in [threads/_async/media.py])
    without the [await]. *)
Definition get_container_status (self : Client) (container_id : string)
  : M MediaContainerStatus.t :=
  let params := _get_params self [("fields", Some (JStr "id,status,error_message"))] in
  response <- http_request {| method := GET;
                              url := [Lit "/"; Lit container_id];
                              params := params |} ;;
  data <- lift (Response_json response) ;;
  if negb (status_code response =? 200)%Z
  then raise (raise_for_error data (status_code response))
  else lift (MediaContainerStatus.model_validate data).

(* ------------------------------------------------------------------ *)
(** ** [PostsClient._wait_for_container] *)

Import MediaContainerStatus.

Definition msg_processing_failed (error_message : option string) : fstring :=
  [Lit "Container processing failed: "; fmt_opt error_message].

Definition msg_expired : fstring := [Lit "Container expired before publishing"].

Definition msg_not_ready (max_wait_time : Q) (status : ContainerStatus) : fstring :=
  [Lit "Container not ready after "; Val (JNum max_wait_time); Lit "s ";
   Lit "(status: "; Lit (ContainerStatus_.value status); Lit ")"].

(** The body of [while True:], unrolled at most [fuel] times. *)
Fixpoint _wait_loop (fuel : nat) (self : Client) (container_id : string)
    (poll_interval max_wait_time start_time : Q) : M MediaContainerStatus.t :=
  match fuel with
  | O => raise Unreachable
  | S fuel' =>
      status <- get_container_status self container_id ;;
      if is_ready status then ret status
      else if has_error status then
        raise (ContainerError (msg_processing_failed (error_message status)))
      else if ContainerStatus_.eqb (MediaContainerStatus.status status) EXPIRED then
        raise (ContainerError msg_expired)
      else
        now <- time_time ;;
        let elapsed := now - start_time in
        if Qle_bool max_wait_time elapsed then
          raise (ContainerError
                   (msg_not_ready max_wait_time (MediaContainerStatus.status status)))
        else
          time_sleep poll_interval ;;;
          _wait_loop fuel' self container_id poll_interval max_wait_time start_time
  end.

(** Every turn of the loop takes one answer from the transport or ends
    the loop, so one turn more than there are answers is enough. *)
Definition _wait_for_container (self : Client) (container_id : string)
    (poll_interval max_wait_time : Q) : M MediaContainerStatus.t :=
  fun w =>
    (start_time <- time_time ;;
     _wait_loop (S (List.length (pending w))) self container_id
                poll_interval max_wait_time start_time) w.

(* ------------------------------------------------------------------ *)
(** ** [threads/_utils/validators.py] *)

(** Strings hold code points below 256. *)
Fixpoint contains_char (c : ascii) (s : string) : bool :=
  match s with
  | EmptyString => false
  | String a rest => Ascii.eqb a c || contains_char c rest
  end.

(** [s.rsplit(c, 1)[-1]]: what follows the last [c], all of [s] when
    there is none. *)
Fixpoint after_last (c : ascii) (s : string) : string :=
  match s with
  | EmptyString => EmptyString
  | String a rest =>
      if contains_char c rest then after_last c rest
      else if Ascii.eqb a c then rest
      else String a rest
  end.

Definition lower_char (a : ascii) : ascii :=
  let n := nat_of_ascii a in
  if ((65 <=? n) && (n <=? 90))%nat
     || ((192 <=? n) && (n <=? 222) && negb (n =? 215))%nat
  then ascii_of_nat (n + 32)
  else a.

(** [s.lower()]. *)
Fixpoint lower (s : string) : string :=
  match s with
  | EmptyString => EmptyString
  | String a rest => String (lower_char a) (lower rest)
  end.

Definition mem (s : string) (l : list string) : bool := existsb (String.eqb s) l.

Definition MAX_TEXT_LENGTH : Z := 500.

Definition SUPPORTED_IMAGE_FORMATS : list string := ["jpg"; "jpeg"; "png"; "gif"; "webp"].

Definition SUPPORTED_VIDEO_FORMATS : list string := ["mp4"; "mov"].

Definition len (s : string) : Z := Z.of_nat (String.length s).

Definition validate_text_length (text : option string) (max_length : Z) : Result unit :=
  match text with
  | None => inr tt
  | Some t =>
      if (max_length <? len t)%Z then
        inl (ValidationError
               [Lit "Text exceeds maximum length of "; Val (JNum (inject_Z max_length));
                Lit " characters "; Lit "(got "; Val (JNum (inject_Z (len t)));
                Lit " characters)"])
      else inr tt
  end.

(** What [urllib.parse.urlparse] gives; the library is outside this
    development and enters as a parameter. [None] is its [ValueError]. *)
Record ParseResult := {
  scheme : string;
  netloc : string;
  path : string
}.

Definition validate_media_url (urlparse : string -> option ParseResult)
    (url : option string) (media_type : MediaType) : Result unit :=
  match url with
  | None =>
      if MediaType_.eqb media_type IMAGE || MediaType_.eqb media_type VIDEO then
        inl (ValidationError
               [Lit "URL is required for "; Lit (MediaType_.value media_type); Lit " posts"])
      else inr tt
  | Some u =>
      match urlparse u with
      | None => inl ValueError
      | Some parsed =>
          if (scheme parsed =? "") || (netloc parsed =? "") then
            inl (ValidationError [Lit "Invalid URL format: "; Lit u])
          else if negb (mem (scheme parsed) ["http"; "https"]) then
            inl (ValidationError [Lit "URL must use http or https scheme: "; Lit u])
          else
            let extension :=
              if contains_char "."%char (path parsed)
              then lower (after_last "."%char (path parsed))
              else "" in
            if MediaType_.eqb media_type IMAGE
               && negb (extension =? "")
               && negb (mem extension SUPPORTED_IMAGE_FORMATS) then
              inl (ValidationError
                     [Lit "Unsupported image format: "; Lit extension; Lit ". ";
                      Lit "Supported: "; JoinSet ", " SUPPORTED_IMAGE_FORMATS])
            else if MediaType_.eqb media_type VIDEO
                    && negb (extension =? "")
                    && negb (mem extension SUPPORTED_VIDEO_FORMATS) then
              inl (ValidationError
                     [Lit "Unsupported video format: "; Lit extension; Lit ". ";
                      Lit "Supported: "; JoinSet ", " SUPPORTED_VIDEO_FORMATS])
            else inr tt
      end
  end.

Definition validate_carousel_items (item_ids : list string) : Result unit :=
  if (List.length item_ids <? 2)%nat then
    inl (ValidationError [Lit "Carousel requires at least 2 items"])
  else if (20 <? List.length item_ids)%nat then
    inl (ValidationError [Lit "Carousel cannot have more than 20 items"])
  else inr tt.

Definition validate_reply_control (reply_control : option string) : Result unit :=
  let valid_values := ["EVERYONE"; "ACCOUNTS_YOU_FOLLOW"; "MENTIONED_ONLY"] in
  match reply_control with
  | Some v =>
      if negb (mem v valid_values) then
        inl (ValidationError
               [Lit "Invalid reply_control value: "; Lit v; Lit ". ";
                Lit "Must be one of: "; JoinSet ", " valid_values])
      else inr tt
  | None => inr tt
  end.

(* ------------------------------------------------------------------ *)
(** ** [threads/models/post.py] *)

Module Post.
(** Fields holding dicts, lists or a datetime keep the validated value
    as it came. *)
Record t := {
  id : string;
  media_product_type : string;
  media_type : MediaType;
  media_url : option string;
  permalink : option string;
  owner : option json;
  username : option string;
  text : option string;
  timestamp : option json;
  shortcode : option string;
  thumbnail_url : option string;
  children : option json;
  is_quote_post : bool;
  has_replies : option bool;
  root_post : option json;
  replied_to : option json;
  is_reply : option bool;
  is_reply_owned_by_me : option bool;
  reply_audience : option ReplyControl;
  hide_status : option string
}.

(** [Post(id=post_id, media_type="TEXT_POST")]: [id] has to be a
    [str]; every other field takes its default. *)
Definition minimal (post_id : json) : Result t :=
  match post_id with
  | JStr s =>
      inr {| id := s; media_product_type := "THREADS"; media_type := TEXT_POST;
             media_url := None; permalink := None; owner := None;
             username := None; text := None; timestamp := None;
             shortcode := None; thumbnail_url := None; children := None;
             is_quote_post := false; has_replies := None; root_post := None;
             replied_to := None; is_reply := None; is_reply_owned_by_me := None;
             reply_audience := None; hide_status := None |}
  | _ => inl PydanticValidationError
  end.
End Post.

(* ------------------------------------------------------------------ *)
(** ** The clients: [threads/_base/media.py], [threads/_base/posts.py],
       [threads/_sync/posts.py] *)

Section Clients.

(** The two library functions the clients lean on: [urlparse] and the
    validator pydantic derives for [Post]. *)
Variable urlparse : string -> option ParseResult.
Variable Post_model_validate : json -> Result Post.t.

Variable self : Client.

(** [BaseMediaClient._validate_and_build_params]. *)
Definition _validate_and_build_params (user_id : string) (media_type : MediaType)
    (text image_url video_url : option string) (is_carousel_item : bool)
    (children : option (list string)) (reply_to_id : option string)
    (reply_control : option ReplyControl) : Result (list (string * json)) :=
  let has_children :=
    match children with Some (_ :: _) => true | _ => false end in
  match validate_text_length text MAX_TEXT_LENGTH with
  | inl e => inl e
  | inr _ =>
  match (match reply_control with
         | Some rc => validate_reply_control (Some (ReplyControl_.value rc))
         | None => inr tt
         end) with
  | inl e => inl e
  | inr _ =>
  match (if MediaType_.eqb media_type IMAGE then
           validate_media_url urlparse image_url IMAGE
         else if MediaType_.eqb media_type VIDEO then
           validate_media_url urlparse video_url VIDEO
         else if MediaType_.eqb media_type CAROUSEL && has_children then
           validate_carousel_items (match children with Some c => c | None => [] end)
         else inr tt) with
  | inl e => inl e
  | inr _ =>
      let params :=
        _get_params self
          [("media_type", Some (JStr (MediaType_.value media_type)));
           ("text", opt_str text);
           ("image_url", opt_str image_url);
           ("video_url", opt_str video_url);
           ("is_carousel_item", if is_carousel_item then Some (JBool true) else None);
           ("reply_to_id", opt_str reply_to_id);
           ("reply_control", opt_str (option_map ReplyControl_.value reply_control))] in
      inr (if has_children
           then (params ++ [("children",
                             JStr (String.concat ","
                                     (match children with Some c => c | None => [] end)))])%list
           else params)
  end end end.

(** Modelled from the spec: the blocking media client
    ([threads/_sync/media.py]) is not in the tree. Section 6 gives
    [createContainer(userId, mediaSpec) -> MediaContainer | Error]:
    validation, one transport call, the error classifier when the
    status code is not 200, else the container with the returned id;
    the body below is the one of the non-blocking twin
    ([AsyncMediaClient.create_container] in [threads/_async/media.py])
    without the [await]. *)
Definition create_container (user_id : string) (media_type : MediaType)
    (text image_url video_url : option string) (is_carousel_item : bool)
    (children : option (list string)) (reply_to_id : option string)
    (reply_control : option ReplyControl) : M MediaContainer.t :=
  params <- lift (_validate_and_build_params user_id media_type text image_url
                    video_url is_carousel_item children reply_to_id reply_control) ;;
  response <- http_request {| method := POST;
                              url := [Lit "/"; Lit user_id; Lit "/threads"];
                              params := params |} ;;
  data <- lift (Response_json response) ;;
  if negb (status_code response =? 200)%Z
  then raise (raise_for_error data (status_code response))
  else
    container_id <- lift (getitem data "id") ;;
    lift (MediaContainer.make container_id).

Definition DEFAULT_POST_FIELDS : list string :=
  ["id"; "media_product_type"; "media_type"; "media_url"; "permalink"; "owner";
   "username"; "text"; "timestamp"; "shortcode"; "thumbnail_url"; "children";
   "is_quote_post"; "has_replies"; "reply_audience"].

(** [BasePostsClient._determine_media_type]. *)
Definition _determine_media_type (text image_url video_url : option string)
  : MediaType :=
  if truthy video_url then VIDEO
  else if truthy image_url then IMAGE
  else TEXT.

(** [BasePostsClient._validate_publish_params]. *)
Definition _validate_publish_params (text image_url video_url : option string)
  : Result unit :=
  match validate_text_length text MAX_TEXT_LENGTH with
  | inl e => inl e
  | inr _ =>
      if negb (truthy text || truthy image_url || truthy video_url) then
        inl (ValidationError
               [Lit "At least one of text, image_url, or video_url is required"])
      else inr tt
  end.

(** [PostsClient.get]; the id is whatever the publish answer held. *)
Definition get (post_id : json) (fields : option (list string)) : M Post.t :=
  let fields := match fields with Some f => f | None => DEFAULT_POST_FIELDS end in
  let params := _get_params self [("fields", Some (JStr (String.concat "," fields)))] in
  response <- http_request {| method := GET;
                              url := [Lit "/"; fmt_val post_id];
                              params := params |} ;;
  data <- lift (Response_json response) ;;
  if negb (status_code response =? 200)%Z
  then raise (raise_for_error data (status_code response))
  else lift (Post_model_validate data).

(** [PostsClient.publish]. The handler of the fetch formats the
    exception for its log line before it builds the post, and the
    formatting can raise. *)
Definition publish (user_id container_id : string) (fetch_post : bool) : M Post.t :=
  let params := _get_params self [("creation_id", Some (JStr container_id))] in
  response <- http_request {| method := POST;
                              url := [Lit "/"; Lit user_id; Lit "/threads_publish"];
                              params := params |} ;;
  data <- lift (Response_json response) ;;
  if negb (status_code response =? 200)%Z
  then raise (raise_for_error data (status_code response))
  else
    post_id <- lift (getitem data "id") ;;
    if negb fetch_post then lift (Post.minimal post_id)
    else try_except (get post_id None)
           (fun e => if str_raises e then raise TypeError
                     else lift (Post.minimal post_id)).

(** [PostsClient.create_and_publish]. *)
Definition create_and_publish (user_id : string)
    (text image_url video_url reply_to_id : option string)
    (reply_control : option ReplyControl) (wait_for_ready : bool)
    (poll_interval max_wait_time : Q) : M Post.t :=
  lift (_validate_publish_params text image_url video_url) ;;;
  let media_type := _determine_media_type text image_url video_url in
  container <- create_container user_id media_type text image_url video_url
                 false None reply_to_id reply_control ;;
  (if wait_for_ready && truthy video_url
   then _wait_for_container self (MediaContainer.id container)
          poll_interval max_wait_time ;;; ret tt
   else ret tt) ;;;
  publish user_id (MediaContainer.id container) true.

End Clients.

(* ------------------------------------------------------------------ *)
(** ** [threads/_sync/posts.py]: listing and deleting *)

(** [for item in v]: a list gives its items, a dict its keys, a string
    its characters; nothing else can be iterated. *)
Definition py_iter (v : json) : Result (list json) :=
  match v with
  | JArr items => inr items
  | JObj fields => inr (map (fun kv => JStr (fst kv)) fields)
  | JStr s => inr (map (fun c => JStr (String c EmptyString)) (list_ascii_of_string s))
  | _ => inl TypeError
  end.

Section Listing.

Variable Post_model_validate : json -> Result Post.t.
Variable self : Client.

(** [[Post.model_validate(item) for item in items]]: the items are
    validated in order and the first failure is raised. *)
Fixpoint validate_posts (items : list json) : Result (list Post.t) :=
  match items with
  | [] => inr []
  | item :: rest =>
      match Post_model_validate item with
      | inl e => inl e
      | inr p =>
          match validate_posts rest with
          | inl e => inl e
          | inr ps => inr (p :: ps)
          end
      end
  end.

(** [PostsClient.get_user_posts]. *)
Definition get_user_posts (user_id : string) (fields : option (list string))
    (since until : option string) (limit : option Z) : M (list Post.t) :=
  let fields := match fields with Some f => f | None => DEFAULT_POST_FIELDS end in
  let params :=
    _get_params self
      [("fields", Some (JStr (String.concat "," fields)));
       ("since", opt_str since);
       ("until", opt_str until);
       ("limit", option_map (fun n => JNum (inject_Z n)) limit)] in
  response <- http_request {| method := GET;
                              url := [Lit "/"; Lit user_id; Lit "/threads"];
                              params := params |} ;;
  data <- lift (Response_json response) ;;
  if negb (status_code response =? 200)%Z
  then raise (raise_for_error data (status_code response))
  else
    listed <- lift (dict_get data "data" (JArr [])) ;;
    items <- lift (py_iter listed) ;;
    lift (validate_posts items).

(** [PostsClient.delete]; the value returned is whatever the body holds
    under ["success"]. *)
Definition delete (post_id : string) : M json :=
  let params := _get_params self [] in
  response <- http_request {| method := DELETE;
                              url := [Lit "/"; Lit post_id];
                              params := params |} ;;
  data <- lift (Response_json response) ;;
  if negb (status_code response =? 200)%Z
  then raise (raise_for_error data (status_code response))
  else lift (dict_get data "success" (JBool true)).

End Listing.

(* ------------------------------------------------------------------ *)
(** ** [threads/_utils/rate_limit.py] *)

(** Every method runs under the limiter's lock, so calls are taken one
    at a time. A method is given [now], the value its [time.time()]
    reads, and returns the limiter as it leaves it. *)
Module RateLimiter.

Record t := {
  max_requests : Z;
  window_seconds : Q;
  _timestamps : list Q   (* the deque, oldest on the left *)
}.

(** [while ts and ts[0] < cutoff: ts.popleft()]. *)
Fixpoint popleft_while_old (cutoff : Q) (ts : list Q) : list Q :=
  match ts with
  | [] => []
  | t0 :: rest =>
      if Qlt_bool t0 cutoff then popleft_while_old cutoff rest else ts
  end.

Definition _cleanup_old_timestamps (self : t) (now : Q) : t :=
  let cutoff := now - window_seconds self in
  {| max_requests := max_requests self;
     window_seconds := window_seconds self;
     _timestamps := popleft_while_old cutoff (_timestamps self) |}.

Definition count (self : t) : Z := Z.of_nat (List.length (_timestamps self)).

Definition can_proceed (now : Q) (self : t) : bool * t :=
  let self := _cleanup_old_timestamps self now in
  ((count self <? max_requests self)%Z, self).

Definition record_request (now : Q) (self : t) : t :=
  {| max_requests := max_requests self;
     window_seconds := window_seconds self;
     _timestamps := _timestamps self ++ [now] |}.

(** The value returned is also the time slept before returning. *)
Definition wait_if_needed (now : Q) (self : t) : Result Q * t :=
  let self := _cleanup_old_timestamps self now in
  if (count self <? max_requests self)%Z then (inr 0, self)
  else
    match _timestamps self with
    | [] => (inl IndexError, self)
    | oldest :: _ =>
        let wait_time := (oldest + window_seconds self) - now in
        if Qlt_bool 0 wait_time then (inr wait_time, self)
        else (inr 0, self)
    end.

Definition remaining (now : Q) (self : t) : Z * t :=
  let self := _cleanup_old_timestamps self now in
  (Z.max 0 (max_requests self - count self), self).

Definition usage (now : Q) (self : t) : Z * t :=
  let self := _cleanup_old_timestamps self now in
  (count self, self).

Definition reset (self : t) : t :=
  {| max_requests := max_requests self;
     window_seconds := window_seconds self;
     _timestamps := [] |}.

(** Every retained timestamp lies in [[now - window_seconds, now]]. *)
Definition in_window (now : Q) (self : t) : Prop :=
  Forall (fun ts => now - window_seconds self <= ts /\ ts <= now) (_timestamps self).

(** The clock never ran backwards: the timestamps were appended in
    non-decreasing order and none is later than [now]. *)
Fixpoint ascending (ts : list Q) : Prop :=
  match ts with
  | [] => True
  | a :: rest => Forall (fun b => a <= b) rest /\ ascending rest
  end.

Definition clock_kept (now : Q) (self : t) : Prop :=
  ascending (_timestamps self) /\ Forall (fun ts => ts <= now) (_timestamps self).

End RateLimiter.

(* ------------------------------------------------------------------ *)
(** ** Vocabulary of the statements *)

Local Open Scope list_scope.

(** The one request a status call sends. *)
Definition status_request (self : Client) (container_id : string) : Request :=
  {| method := GET;
     url := [Lit "/"; Lit container_id];
     params := _get_params self [("fields", Some (JStr "id,status,error_message"))] |}.

(** What a status call makes of the transport's answer. *)
Definition fetched (resp : option Response) : Result MediaContainerStatus.t :=
  match resp with
  | None => inl HTTPError
  | Some r =>
      match Response_json r with
      | inl e => inl e
      | inr data =>
          if negb (status_code r =? 200)%Z
          then inl (raise_for_error data (status_code r))
          else MediaContainerStatus.model_validate data
      end
  end.

(** The answer the next call will get, and the world after that call. *)
Definition next_response (w : World) : option Response :=
  match pending w with
  | [] => None
  | r :: _ => response r
  end.

Definition after_call (req : Request) (w : World) : World :=
  match pending w with
  | [] => {| clock := clock w; pending := []; trace := trace w ++ [(req, None)] |}
  | r :: rest => {| clock := clock w + latency r;
                    pending := rest;
                    trace := trace w ++ [(req, response r)] |}
  end.

(** The world after [time.sleep(secs)] for a non-negative length. *)
Definition slept (secs : Q) (w : World) : World :=
  {| clock := clock w + secs; pending := pending w; trace := trace w |}.

(** The statuses on which the poller neither returns nor fails at once. *)
Definition non_terminal (s : ContainerStatus) : Prop :=
  s = IN_PROGRESS \/ s = PUBLISHED.

(** An answer that decodes to a snapshot with a non-terminal status:
    the poller goes on after it unless the deadline has passed. *)
Definition continuing (resp : option Response) : Prop :=
  exists s, fetched resp = inr s /\ non_terminal (MediaContainerStatus.status s).

Definition keeps_polling (r : Reply) : Prop := continuing (response r).

(** The deadline is not reached at any of these fetches: [elapsed]
    seconds have passed when the first is sent, each takes its latency
    and is followed by a sleep of [poll_interval]. *)
Fixpoint on_time (poll_interval max_wait_time elapsed : Q) (latencies : list Q) : Prop :=
  match latencies with
  | [] => True
  | l :: rest =>
      elapsed + l < max_wait_time
      /\ on_time poll_interval max_wait_time (elapsed + l + poll_interval) rest
  end.

(** A well-formed answer to a status call. *)
Definition status_reply (lat : Q) (container_id status : string)
    (error_message : option string) : Reply :=
  {| latency := lat;
     response :=
       Some {| status_code := 200;
               body := Some (JObj ([("id", JStr container_id); ("status", JStr status)]
                                     ++ match error_message with
                                        | Some m => [("error_message", JStr m)]
                                        | None => []
                                        end)) |} |}.

Definition fresh (replies : list Reply) : World :=
  {| clock := 0; pending := replies; trace := [] |}.


(** The result [r] of a poller run whose last call got [resp]. *)
Definition settles (max_wait_time : Q) (resp : option Response)
    (r : Result MediaContainerStatus.t) : Prop :=
  match fetched resp with
  | inl e => r = inl e
  | inr s =>
      match MediaContainerStatus.status s with
      | FINISHED => r = inr s
      | ERROR =>
          r = inl (ContainerError
                     (msg_processing_failed (MediaContainerStatus.error_message s)))
      | EXPIRED => r = inl (ContainerError msg_expired)
      | st => r = inl (ContainerError (msg_not_ready max_wait_time st))
              \/ r = inl ValueError
      end
  end.

(** Sample data, after the unit tests of the posts client. *)
Definition demo_client : Client := {| access_token := "token_123" |}.

Definition demo_in_progress : Reply :=
  status_reply (1 # 10) "container_123" "IN_PROGRESS" None.

Definition demo_finished : Reply :=
  status_reply (1 # 10) "container_123" "FINISHED" None.

Definition demo_finished_snapshot : MediaContainerStatus.t :=
  {| MediaContainerStatus.id := "container_123";
     MediaContainerStatus.status := FINISHED;
     MediaContainerStatus.error_message := None |}.

Definition demo_in_progress_snapshot : MediaContainerStatus.t :=
  {| MediaContainerStatus.id := "container_123";
     MediaContainerStatus.status := IN_PROGRESS;
     MediaContainerStatus.error_message := None |}.

Definition demo_error : Reply :=
  status_reply (1 # 10) "container_123" "ERROR" (Some "Invalid video format").

Definition demo_error_snapshot : MediaContainerStatus.t :=
  {| MediaContainerStatus.id := "container_123";
     MediaContainerStatus.status := ERROR;
     MediaContainerStatus.error_message := Some "Invalid video format" |}.

Definition demo_expired : Reply :=
  status_reply (1 # 10) "container_123" "EXPIRED" None.

Definition demo_unrecognized : Reply :=
  status_reply (1 # 10) "container_123" "PROCESSING" None.

(** The requests of the posts client, and what it makes of the answers. *)
Definition create_request (user_id : string) (params : list (string * json)) : Request :=
  {| method := POST; url := [Lit "/"; Lit user_id; Lit "/threads"]; params := params |}.

Definition publish_request (self : Client) (user_id container_id : string) : Request :=
  {| method := POST;
     url := [Lit "/"; Lit user_id; Lit "/threads_publish"];
     params := _get_params self [("creation_id", Some (JStr container_id))] |}.

Definition post_request (self : Client) (post_id : json) : Request :=
  {| method := GET;
     url := [Lit "/"; fmt_val post_id];
     params := _get_params self
                 [("fields", Some (JStr (String.concat "," DEFAULT_POST_FIELDS)))] |}.

(** A call to the publish endpoint of some user. *)
Definition is_publish (req : Request) : Prop :=
  method req = POST
  /\ exists user_id, url req = [Lit "/"; Lit user_id; Lit "/threads_publish"].

(** What [create_container] makes of the transport's answer. *)
Definition created (resp : option Response) : Result MediaContainer.t :=
  match resp with
  | None => inl HTTPError
  | Some r =>
      match Response_json r with
      | inl e => inl e
      | inr data =>
          if negb (status_code r =? 200)%Z
          then inl (raise_for_error data (status_code r))
          else match getitem data "id" with
               | inl e => inl e
               | inr v => MediaContainer.make v
               end
      end
  end.

(** What [publish] makes of the answer to the publish call: the post id. *)
Definition published (resp : option Response) : Result json :=
  match resp with
  | None => inl HTTPError
  | Some r =>
      match Response_json r with
      | inl e => inl e
      | inr data =>
          if negb (status_code r =? 200)%Z
          then inl (raise_for_error data (status_code r))
          else getitem data "id"
      end
  end.

(** What [get] makes of the transport's answer. *)
Definition post_fetched (Post_model_validate : json -> Result Post.t)
    (resp : option Response) : Result Post.t :=
  match resp with
  | None => inl HTTPError
  | Some r =>
      match Response_json r with
      | inl e => inl e
      | inr data =>
          if negb (status_code r =? 200)%Z
          then inl (raise_for_error data (status_code r))
          else Post_model_validate data
      end
  end.

(** Calls only ever add to the trace. *)
Definition extends (w w' : World) : Prop := exists l, trace w' = trace w ++ l.

(** Stand-ins for the two library functions, for the sample runs: a
    parser that sees every url as [https://example.com/video.mp4], and a
    validator that keeps the id of the body. *)
Definition demo_urlparse (u : string) : option ParseResult :=
  Some {| scheme := "https"; netloc := "example.com"; path := "/video.mp4" |}.

Definition demo_validate (data : json) : Result Post.t :=
  match getitem data "id" with
  | inr v => Post.minimal v
  | inl _ => inl PydanticValidationError
  end.

Definition ok_reply (data : json) : Reply :=
  {| latency := 1 # 10;
     response := Some {| status_code := 200; body := Some data |} |}.

Definition error_reply (code : Z) : Reply :=
  {| latency := 1 # 10;
     response := Some {| status_code := code;
                         body := Some (JObj [("error",
                                              JObj [("message", JStr "Server error")])]) |} |}.

Definition demo_long_text : string := String.concat "" (repeat "a" 501).


Definition demo_container_reply : Reply := ok_reply (JObj [("id", JStr "container_123")]).

Definition demo_publish_body : json := JObj [("id", JStr "post_456")].


Definition demo_publish_reply : Reply := ok_reply demo_publish_body.

(** A publish answered with a numeric post id, and a call answered with
    status 500 and an error whose message is [null]. *)
Definition demo_numeric_id_reply : Reply := ok_reply (JObj [("id", JNum 123)]).

Definition demo_null_message_reply : Reply :=
  {| latency := 1 # 10;
     response := Some {| status_code := 500;
                         body := Some (JObj [("error",
                                              JObj [("message", JNull)])]) |} |}.

Definition demo_video : option string := Some "https://example.com/video.mp4".

Definition demo_image : option string := Some "https://example.com/image.jpg".

(** Scenario C of the specification: the container of a video post is
    found EXPIRED at the first poll. *)
Definition scenario_c : World :=
  fresh [demo_container_reply; demo_expired; demo_publish_reply].


(** A limiter of five requests per ten seconds, and the same after a
    request at second 0. *)
Definition demo_limiter : RateLimiter.t :=
  {| RateLimiter.max_requests := 5;
     RateLimiter.window_seconds := 10;
     RateLimiter._timestamps := [] |}.

Definition demo_limiter_used : RateLimiter.t := RateLimiter.record_request 0 demo_limiter.

(** The JSON object of a snapshot, as the status endpoint sends it. *)
Definition snapshot_fields (s : MediaContainerStatus.t) : list (string * json) :=
  [("id", JStr (MediaContainerStatus.id s));
   ("status", JStr (ContainerStatus_.value (MediaContainerStatus.status s)));
   ("error_message", match MediaContainerStatus.error_message s with
                     | Some m => JStr m
                     | None => JNull
                     end)].

(** The extension [validate_media_url] reads off a parsed url. *)
Definition extension_of (p : ParseResult) : string :=
  if contains_char "."%char (path p)
  then lower (after_last "."%char (path p))
  else "".

(** The requests of listing and deleting. *)
Definition list_request (self : Client) (user_id : string)
    (since until : option string) (limit : option Z) : Request :=
  {| method := GET;
     url := [Lit "/"; Lit user_id; Lit "/threads"];
     params := _get_params self
                 [("fields", Some (JStr (String.concat "," DEFAULT_POST_FIELDS)));
                  ("since", opt_str since);
                  ("until", opt_str until);
                  ("limit", option_map (fun n => JNum (inject_Z n)) limit)] |}.

Definition delete_request (self : Client) (post_id : string) : Request :=
  {| method := DELETE;
     url := [Lit "/"; Lit post_id];
     params := [("access_token", JStr (access_token self))] |}.

(** The class [raise_for_error] gives to a status code when the error
    code decides nothing, and the entry of an error object under a key,
    with its default. *)
Definition status_class (code : Z) : APIErrorClass :=
  if (code =? 401)%Z then AuthenticationError
  else if (code =? 403)%Z then AuthorizationError
  else if (code =? 429)%Z then RateLimitError
  else if (code =? 404)%Z then NotFoundError
  else ThreadsAPIError.

Definition entry_or (default : json) (key : string) (fields : list (string * json)) : json :=
  match assoc key fields with
  | Some v => v
  | None => default
  end.

(** Keyword arguments that name the access token, and a request body
    with an error code of the authentication class. *)
Definition demo_extra : list (string * option json) :=
  [("creation_id", Some (JStr "container_123"));
   ("access_token", Some (JStr "other_token"));
   ("limit", None)].

Definition demo_error_fields : list (string * json) :=
  [("message", JStr "Session expired"); ("code", JNum 190)].

Definition demo_parsed : ParseResult :=
  {| scheme := "https"; netloc := "example.com"; path := "/video.mp4" |}.

(** A limiter of two requests per ten seconds that recorded requests at
    seconds 0 and 4. *)
Definition demo_limiter_full : RateLimiter.t :=
  {| RateLimiter.max_requests := 2;
     RateLimiter.window_seconds := 10;
     RateLimiter._timestamps := [0; 4] |}.

(** A limiter of two requests per ten seconds that recorded requests at
    seconds 0, 4 and 12: read at second 13, the first has expired. *)
Definition demo_limiter_aged : RateLimiter.t :=
  {| RateLimiter.max_requests := 2;
     RateLimiter.window_seconds := 10;
     RateLimiter._timestamps := [0; 4; 12] |}.

(* ------------------------------------------------------------------ *)
(** ** Comparisons on rationals *)

Lemma Qle_bool_false (a b : Q) : Qle_bool a b = false <-> b < a.
Proof.
  split; intros H.
  - destruct (Qlt_le_dec b a) as [L | L]; [exact L |].
    apply Qle_bool_iff in L. congruence.
  - destruct (Qle_bool a b) eqn:E; [| reflexivity].
    apply Qle_bool_iff in E. lra.
Qed.

Lemma Qlt_bool_true (a b : Q) : Qlt_bool a b = true <-> a < b.
Proof. unfold Qlt_bool. rewrite negb_true_iff. apply Qle_bool_false. Qed.

Lemma Qlt_bool_false (a b : Q) : Qlt_bool a b = false <-> b <= a.
Proof. unfold Qlt_bool. rewrite negb_false_iff. apply Qle_bool_iff. Qed.

(* ------------------------------------------------------------------ *)
(** ** The poller, one turn at a time *)

Section Poller.

Variable self : Client.
Variable container_id : string.
Variables poll_interval max_wait_time : Q.

Lemma http_request_eq (r : Request) (w : World) :
  http_request r w
  = (match next_response w with Some resp => inr resp | None => inl HTTPError end,
     after_call r w).
Proof.
  unfold http_request, next_response, after_call.
  destruct (pending w) as [| x rest]; [reflexivity |].
  destruct (response x); reflexivity.
Qed.

Lemma get_container_status_eq (w : World) :
  get_container_status self container_id w
  = (fetched (next_response w), after_call (status_request self container_id) w).
Proof.
  unfold get_container_status, bind. rewrite http_request_eq.
  fold (status_request self container_id).
  unfold fetched, lift, raise.
  destruct (next_response w) as [resp |]; [| reflexivity].
  destruct (Response_json resp) as [e | data]; [reflexivity |].
  destruct (negb (status_code resp =? 200)%Z); reflexivity.
Qed.

Lemma wait_loop_S (fuel : nat) (start_time : Q) (w : World) :
  _wait_loop (S fuel) self container_id poll_interval max_wait_time start_time w
  = let w1 := after_call (status_request self container_id) w in
    match fetched (next_response w) with
    | inl e => (inl e, w1)
    | inr s =>
        if is_ready s then (inr s, w1)
        else if has_error s then
          (inl (ContainerError (msg_processing_failed (error_message s))), w1)
        else if ContainerStatus_.eqb (status s) EXPIRED then
          (inl (ContainerError msg_expired), w1)
        else if Qle_bool max_wait_time (clock w1 - start_time) then
          (inl (ContainerError (msg_not_ready max_wait_time (status s))), w1)
        else if Qlt_bool poll_interval 0 then (inl ValueError, w1)
        else _wait_loop fuel self container_id poll_interval max_wait_time
                        start_time (slept poll_interval w1)
    end.
Proof.
  cbn [_wait_loop]. unfold bind at 1. rewrite get_container_status_eq.
  cbv zeta. destruct (fetched (next_response w)) as [e | s]; [reflexivity |].
  destruct (is_ready s); [reflexivity |].
  destruct (has_error s); [reflexivity |].
  destruct (ContainerStatus_.eqb (status s) EXPIRED); [reflexivity |].
  unfold bind, time_time, time_sleep, raise.
  destruct (Qle_bool max_wait_time (clock (after_call (status_request self container_id) w) - start_time));
    [reflexivity |].
  destruct (Qlt_bool poll_interval 0); reflexivity.
Qed.

End Poller.

(* ------------------------------------------------------------------ *)
(** ** Convergence on FINISHED *)

Section Convergence.

Variable self : Client.
Variable container_id : string.
Variables poll_interval max_wait_time : Q.

Lemma wait_loop_finished (fin : Reply) (s_fin : MediaContainerStatus.t)
    (rest : list Reply) (start_time : Q) :
  0 <= poll_interval ->
  fetched (response fin) = inr s_fin ->
  status s_fin = FINISHED ->
  forall (earlier : list Reply) (fuel : nat) (now elapsed : Q)
         (tr : list (Request * option Response)),
    (List.length earlier < fuel)%nat ->
    Forall keeps_polling earlier ->
    now - start_time == elapsed ->
    on_time poll_interval max_wait_time elapsed (map latency earlier) ->
    exists end_time : Q,
      _wait_loop fuel self container_id poll_interval max_wait_time start_time
                 {| clock := now; pending := earlier ++ fin :: rest; trace := tr |}
      = (inr s_fin,
         {| clock := end_time;
            pending := rest;
            trace := tr ++ map (fun r => (status_request self container_id, response r))
                               (earlier ++ [fin]) |}).
Proof.
  intros Hpi Hfin Hst earlier.
  induction earlier as [| r earlier IH]; intros fuel now elapsed tr Hfuel Hall Hel Hon.
  - destruct fuel as [| fuel]; [cbn in Hfuel; lia |].
    rewrite wait_loop_S. cbn [app next_response pending].
    rewrite Hfin. unfold is_ready. rewrite Hst. cbn. eauto.
  - destruct fuel as [| fuel]; [cbn in Hfuel; lia |].
    inversion Hall as [| ? ? [s [Hs Hnt]] Hall']; subst.
    cbn [map on_time] in Hon. destruct Hon as [Hlt Hon].
    rewrite wait_loop_S. cbn [app next_response pending].
    rewrite Hs. cbv zeta.
    assert (Hready : is_ready s = false)
      by (unfold is_ready; destruct Hnt as [-> | ->]; reflexivity).
    assert (Herr : has_error s = false)
      by (unfold has_error; destruct Hnt as [-> | ->]; reflexivity).
    assert (Hexp : ContainerStatus_.eqb (status s) EXPIRED = false)
      by (destruct Hnt as [-> | ->]; reflexivity).
    rewrite Hready, Herr, Hexp.
    unfold after_call, slept. cbn [pending clock trace].
    assert (Hdl : Qle_bool max_wait_time (now + latency r - start_time) = false)
      by (apply Qle_bool_false; lra).
    rewrite Hdl.
    assert (Hsl : Qlt_bool poll_interval 0 = false)
      by (apply Qlt_bool_false; exact Hpi).
    rewrite Hsl.
    destruct (IH fuel (now + latency r + poll_interval)
                 (elapsed + latency r + poll_interval)
                 (tr ++ [(status_request self container_id, response r)]))
      as [end_time R]; [cbn in Hfuel; lia | exact Hall' | lra | exact Hon |].
    exists end_time. rewrite R. rewrite <- app_assoc. reflexivity.
Qed.

End Convergence.

(* ------------------------------------------------------------------ *)
(** ** The shape of every run of the poller *)

Lemma ContainerStatus_eqb_eq (a b : ContainerStatus) :
  ContainerStatus_.eqb a b = true <-> a = b.
Proof. destruct a, b; vm_compute; split; congruence. Qed.

Lemma skipn_length_app {A : Type} (l l' : list A) :
  skipn (List.length l) (l ++ l') = l'.
Proof. induction l as [| a l IH]; [reflexivity | exact IH]. Qed.

Lemma trace_after_call (req : Request) (w : World) :
  trace (after_call req w) = trace w ++ [(req, next_response w)].
Proof. unfold after_call, next_response. destruct (pending w); reflexivity. Qed.

Lemma pending_after_call (req : Request) (w : World) :
  pending (after_call req w) = tl (pending w).
Proof. unfold after_call. destruct (pending w); reflexivity. Qed.

Section Shape.

Variable self : Client.
Variable container_id : string.
Variables poll_interval max_wait_time : Q.

Lemma wait_loop_shape (start_time : Q) (fuel : nat) :
  forall (w : World) (r : Result MediaContainerStatus.t) (w' : World),
    (List.length (pending w) < fuel)%nat ->
    _wait_loop fuel self container_id poll_interval max_wait_time start_time w = (r, w') ->
    exists (earlier : list (option Response)) (last : option Response),
      trace w' = trace w ++ map (pair (status_request self container_id))
                                (earlier ++ [last])
      /\ Forall continuing earlier
      /\ settles max_wait_time last r.
Proof.
  induction fuel as [| fuel IH]; intros w r w' Hfuel Hrun; [lia |].
  rewrite wait_loop_S in Hrun. cbv zeta in Hrun.
  destruct (fetched (next_response w)) as [e | s] eqn:Hf.
  { inversion Hrun; subst. exists [], (next_response w).
    rewrite trace_after_call. unfold settles. rewrite Hf. auto. }
  destruct (is_ready s) eqn:Hready.
  { inversion Hrun; subst. exists [], (next_response w).
    rewrite trace_after_call. unfold settles. rewrite Hf.
    apply ContainerStatus_eqb_eq in Hready. rewrite Hready. auto. }
  destruct (has_error s) eqn:Herr.
  { inversion Hrun; subst. exists [], (next_response w).
    rewrite trace_after_call. unfold settles. rewrite Hf.
    apply ContainerStatus_eqb_eq in Herr. rewrite Herr. auto. }
  destruct (ContainerStatus_.eqb (status s) EXPIRED) eqn:Hexp.
  { inversion Hrun; subst. exists [], (next_response w).
    rewrite trace_after_call. unfold settles. rewrite Hf.
    apply ContainerStatus_eqb_eq in Hexp. rewrite Hexp. auto. }
  assert (Hnt : non_terminal (status s)).
  { unfold is_ready, has_error in *. unfold non_terminal.
    destruct (status s); try discriminate; auto. }
  destruct (Qle_bool max_wait_time _) eqn:Hdl.
  { inversion Hrun; subst. exists [], (next_response w).
    rewrite trace_after_call. unfold settles. rewrite Hf.
    destruct Hnt as [-> | ->]; auto. }
  destruct (Qlt_bool poll_interval 0) eqn:Hsl.
  { inversion Hrun; subst. exists [], (next_response w).
    rewrite trace_after_call. unfold settles. rewrite Hf.
    destruct Hnt as [-> | ->]; auto. }
  apply IH in Hrun.
  - destruct Hrun as (earlier & last & Htr & Hall & Hset).
    exists (next_response w :: earlier), last.
    cbn [slept trace] in Htr. rewrite trace_after_call in Htr.
    rewrite Htr, <- app_assoc. repeat split; auto.
    constructor; [exists s; auto | exact Hall].
  - cbn [slept pending]. rewrite pending_after_call.
    unfold next_response in Hf.
    destruct (pending w) as [| x rest]; [discriminate Hf | cbn in *; lia].
Qed.

(** The same for the whole poller, in terms of the calls it made. *)
Lemma wait_for_container_shape (w : World) (r : Result MediaContainerStatus.t)
    (w' : World) :
  _wait_for_container self container_id poll_interval max_wait_time w = (r, w') ->
  exists (earlier : list (option Response)) (last : option Response),
    calls_since w w' = map (pair (status_request self container_id)) (earlier ++ [last])
    /\ Forall continuing earlier
    /\ settles max_wait_time last r.
Proof.
  unfold _wait_for_container, bind, time_time. intros Hrun.
  apply wait_loop_shape in Hrun; [| lia].
  destruct Hrun as (earlier & last & Htr & Hall & Hset).
  exists earlier, last. unfold calls_since. rewrite Htr, skipn_length_app. auto.
Qed.

End Shape.

(* ------------------------------------------------------------------ *)
(** ** The poller: statements of the specification *)

Lemma raise_for_error_raised (data : json) (code : Z) :
  raise_for_error data code <> Unreachable.
Proof.
  unfold raise_for_error, dict_get.
  destruct data; try discriminate.
  destruct (assoc "error" fields) as [[] |]; try discriminate;
    repeat match goal with
           | |- context [assoc ?k ?f] => destruct (assoc k f)
           end; discriminate.
Qed.

Lemma fetched_raised (resp : option Response) :
  fetched resp <> inl Unreachable.
Proof.
  unfold fetched, Response_json.
  destruct resp as [resp |]; [| discriminate].
  destruct (body resp) as [data |]; [| discriminate].
  destruct (negb (status_code resp =? 200)%Z).
  - intros H. inversion H as [H']. exact (raise_for_error_raised _ _ H').
  - unfold MediaContainerStatus.model_validate.
    destruct data; try discriminate.
    destruct (assoc "id" fields) as [[] |]; try discriminate.
    destruct (assoc "status" fields) as [[] |]; try discriminate.
    destruct (ContainerStatus_.of_value s0); try discriminate.
    destruct (assoc "error_message" fields) as [[] |]; discriminate.
Qed.

(** The loop bound of the model is never met: the poller always ends
    the way the Python loop does. *)
Lemma wait_for_container_total (self : Client) (container_id : string)
    (poll_interval max_wait_time : Q) (w : World) :
  fst (_wait_for_container self container_id poll_interval max_wait_time w)
  <> inl Unreachable.
Proof.
  destruct (_wait_for_container _ _ _ _ w) as [r w'] eqn:Hrun.
  apply wait_for_container_shape in Hrun.
  destruct Hrun as (earlier & last & _ & _ & Hset).
  cbn [fst]. intros ->. unfold settles in Hset.
  destruct (fetched last) as [e | s] eqn:Hf.
  - inversion Hset; subst. exact (fetched_raised _ Hf).
  - destruct (status s); try discriminate; destruct Hset; discriminate.
Qed.

Lemma non_terminal_tests (s : MediaContainerStatus.t) :
  non_terminal (status s) ->
  is_ready s = false /\ has_error s = false
  /\ ContainerStatus_.eqb (status s) EXPIRED = false.
Proof.
  unfold is_ready, has_error. intros [-> | ->]; repeat split; reflexivity.
Qed.

(** A call whose answer does not let the poller go on is the last call
    of the run, and it decides the result. *)
Lemma wait_for_container_stops_at (self : Client) (container_id : string)
    (poll_interval max_wait_time : Q) (w : World) (resp : option Response) :
  In (status_request self container_id, resp)
     (calls_since w (snd (_wait_for_container self container_id
                            poll_interval max_wait_time w))) ->
  ~ continuing resp ->
  settles max_wait_time resp
    (fst (_wait_for_container self container_id poll_interval max_wait_time w))
  /\ exists before,
      calls_since w (snd (_wait_for_container self container_id
                            poll_interval max_wait_time w))
      = before ++ [(status_request self container_id, resp)].
Proof.
  destruct (_wait_for_container _ _ _ _ w) as [r w'] eqn:Hrun.
  apply wait_for_container_shape in Hrun.
  destruct Hrun as (earlier & last & Hcalls & Hall & Hset).
  cbn [fst snd]. rewrite Hcalls. intros Hin Hstop.
  apply in_map_iff in Hin. destruct Hin as (x & Hx & Hin).
  inversion Hx; subst x. apply in_app_or in Hin. destruct Hin as [Hin | Hin].
  - rewrite Forall_forall in Hall. elim Hstop. exact (Hall _ Hin).
  - destruct Hin as [-> | []]. split; [exact Hset |].
    exists (map (pair (status_request self container_id)) earlier).
    rewrite map_app. reflexivity.
Qed.

(** A call that is followed by another call got an answer that lets
    the poller go on. *)
Lemma followed_call_is_continuing (self : Client) (container_id : string)
    (poll_interval max_wait_time : Q) (w : World)
    (before after : list (Request * option Response))
    (call : Request * option Response) :
  calls_since w (snd (_wait_for_container self container_id
                        poll_interval max_wait_time w))
  = before ++ call :: after ->
  after <> [] ->
  continuing (snd call).
Proof.
  destruct (_wait_for_container _ _ _ _ w) as [r w'] eqn:Hrun.
  apply wait_for_container_shape in Hrun.
  destruct Hrun as (earlier & last & Hcalls & Hall & _).
  cbn [snd]. rewrite Hcalls, map_app. cbn [map]. intros Heq Hafter.
  destruct (exists_last Hafter) as (after' & y & ->).
  change (before ++ call :: after' ++ [y])
    with (before ++ (call :: after') ++ [y]) in Heq.
  rewrite app_assoc in Heq. apply app_inj_tail in Heq. destruct Heq as [Heq _].
  assert (Hin : In call (map (pair (status_request self container_id)) earlier)).
  { rewrite Heq. apply in_or_app. right. left. reflexivity. }
  apply in_map_iff in Hin. destruct Hin as (x & <- & Hx).
  rewrite Forall_forall in Hall. exact (Hall x Hx).
Qed.

(** C1, as the code has it. Given answers to the status call of which
    the last decodes to a FINISHED snapshot and the earlier ones to
    snapshots with a non-terminal status (IN_PROGRESS or PUBLISHED), and
    given that the deadline [max_wait_time] is not reached at any of the
    earlier fetches, the poller returns the FINISHED snapshot and makes
    exactly one status call per answer, in order. *)
Theorem wait_for_container_returns_finished
    (self : Client) (container_id : string) (poll_interval max_wait_time : Q)
    (earlier : list Reply) (fin : Reply) (s_fin : MediaContainerStatus.t)
    (w : World) :
  0 <= poll_interval ->
  pending w = earlier ++ [fin] ->
  Forall keeps_polling earlier ->
  fetched (response fin) = inr s_fin ->
  status s_fin = FINISHED ->
  on_time poll_interval max_wait_time 0 (map latency earlier) ->
  let out := _wait_for_container self container_id poll_interval max_wait_time w in
  fst out = inr s_fin
  /\ calls_since w (snd out)
     = map (fun r => (status_request self container_id, response r)) (pending w)
  /\ List.length (calls_since w (snd out)) = List.length (pending w).
Proof.
  intros Hpi Hpend Hall Hfin Hst Hon out.
  assert (Hcalls : fst out = inr s_fin
                   /\ calls_since w (snd out)
                      = map (fun r => (status_request self container_id, response r))
                            (pending w)).
  { subst out. unfold _wait_for_container, bind, time_time.
    destruct w as [now pend tr]. cbn [clock pending trace] in *. subst pend.
    destruct (wait_loop_finished self container_id poll_interval max_wait_time
                fin s_fin [] now Hpi Hfin Hst earlier
                (S (List.length (earlier ++ [fin]))) now 0 tr)
      as [end_time R].
    - rewrite length_app. cbn. lia.
    - exact Hall.
    - lra.
    - exact Hon.
    - rewrite R. cbn [fst snd]. unfold calls_since. cbn [trace].
      rewrite skipn_length_app. auto. }
  destruct Hcalls as [R1 R2]. repeat split; auto.
  rewrite R2. apply length_map.
Qed.

(** C1 at Scenario B of the specification: IN_PROGRESS, IN_PROGRESS,
    FINISHED at one-second polling gives the snapshot after three calls. *)
Lemma wait_for_container_returns_finished_witness :
  fst (_wait_for_container demo_client "container_123" 1 60
         (fresh [demo_in_progress; demo_in_progress; demo_finished]))
  = inr demo_finished_snapshot
  /\ List.length
       (calls_since (fresh [demo_in_progress; demo_in_progress; demo_finished])
          (snd (_wait_for_container demo_client "container_123" 1 60
                  (fresh [demo_in_progress; demo_in_progress; demo_finished]))))
     = 3%nat.
Proof.
  destruct (wait_for_container_returns_finished demo_client "container_123" 1 60
              [demo_in_progress; demo_in_progress] demo_finished
              demo_finished_snapshot
              (fresh [demo_in_progress; demo_in_progress; demo_finished]))
    as (R & _ & N).
  - lra.
  - reflexivity.
  - repeat constructor;
      (eexists; split; [reflexivity | left; reflexivity]).
  - reflexivity.
  - reflexivity.
  - cbn. repeat split; lra.
  - split; [exact R | exact N].
Defined.

(** C1 as stated fails twice over. With [poll_interval = 1] and
    [max_wait_time = 1] the answers IN_PROGRESS, IN_PROGRESS, FINISHED
    end in the timeout error after two calls: the FINISHED answer is
    never fetched. And an earlier answer with an unrecognized status
    string ends the run with the decoder's error after one call. *)
Lemma wait_for_container_finished_counterexample :
  Forall keeps_polling [demo_in_progress; demo_in_progress]
  /\ fetched (response demo_finished) = inr demo_finished_snapshot
  /\ status demo_finished_snapshot = FINISHED
  /\ fst (_wait_for_container demo_client "container_123" 1 1
            (fresh [demo_in_progress; demo_in_progress; demo_finished]))
     = inl (ContainerError (msg_not_ready 1 IN_PROGRESS))
  /\ List.length
       (calls_since (fresh [demo_in_progress; demo_in_progress; demo_finished])
          (snd (_wait_for_container demo_client "container_123" 1 1
                  (fresh [demo_in_progress; demo_in_progress; demo_finished]))))
     = 2%nat
  /\ fst (_wait_for_container demo_client "container_123" 1 60
            (fresh [demo_unrecognized; demo_finished]))
     = inl PydanticValidationError
  /\ List.length
       (calls_since (fresh [demo_unrecognized; demo_finished])
          (snd (_wait_for_container demo_client "container_123" 1 60
                  (fresh [demo_unrecognized; demo_finished]))))
     = 1%nat.
Proof.
  split; [| repeat split; reflexivity].
  repeat constructor; (eexists; split; [reflexivity | left; reflexivity]).
Qed.

(** The run of the poller under a deadline shorter than one sleep. *)
Lemma short_deadline_run
    (self : Client) (container_id : string) (poll_interval max_wait_time : Q)
    (r1 r2 : Reply) (rest : list Reply) (s1 s2 : MediaContainerStatus.t)
    (w : World) :
  0 < max_wait_time ->
  max_wait_time < poll_interval ->
  0 <= latency r1 ->
  0 <= latency r2 ->
  pending w = r1 :: r2 :: rest ->
  fetched (response r1) = inr s1 -> non_terminal (status s1) ->
  fetched (response r2) = inr s2 -> non_terminal (status s2) ->
  _wait_for_container self container_id poll_interval max_wait_time w
  = if Qle_bool max_wait_time (latency r1)
    then (inl (ContainerError (msg_not_ready max_wait_time (status s1))),
          after_call (status_request self container_id) w)
    else (inl (ContainerError (msg_not_ready max_wait_time (status s2))),
          after_call (status_request self container_id)
            (slept poll_interval (after_call (status_request self container_id) w))).
Proof.
  intros Hmw Hpi Hl1 Hl2 Hpend Hf1 Hn1 Hf2 Hn2.
  destruct (non_terminal_tests s1 Hn1) as (A1 & B1 & C1).
  destruct (non_terminal_tests s2 Hn2) as (A2 & B2 & C2).
  unfold _wait_for_container, bind, time_time.
  rewrite wait_loop_S. cbv zeta.
  unfold next_response at 1. rewrite Hpend. rewrite Hf1, A1, B1, C1.
  assert (Hc1 : clock (after_call (status_request self container_id) w)
                = clock w + latency r1)
    by (unfold after_call; rewrite Hpend; reflexivity).
  rewrite Hc1.
  destruct (Qle_bool max_wait_time (latency r1)) eqn:Hfirst.
  - apply Qle_bool_iff in Hfirst.
    assert (Hd : Qle_bool max_wait_time (clock w + latency r1 - clock w) = true)
      by (apply Qle_bool_iff; lra).
    rewrite Hd. reflexivity.
  - apply Qle_bool_false in Hfirst.
    assert (Hd : Qle_bool max_wait_time (clock w + latency r1 - clock w) = false)
      by (apply Qle_bool_false; lra).
    rewrite Hd.
    assert (Hs : Qlt_bool poll_interval 0 = false)
      by (apply Qlt_bool_false; lra).
    rewrite Hs. cbn [List.length]. rewrite wait_loop_S. cbv zeta.
    assert (Hn : next_response
                   (slept poll_interval (after_call (status_request self container_id) w))
                 = response r2)
      by (unfold next_response, slept, after_call; rewrite Hpend; reflexivity).
    rewrite Hn, Hf2, A2, B2, C2.
    assert (Hc2 : clock (after_call (status_request self container_id)
                           (slept poll_interval
                              (after_call (status_request self container_id) w)))
                  = clock w + latency r1 + poll_interval + latency r2)
      by (unfold slept, after_call; rewrite Hpend; reflexivity).
    rewrite Hc2.
    assert (Hd2 : Qle_bool max_wait_time
                    (clock w + latency r1 + poll_interval + latency r2 - clock w)
                  = true)
      by (apply Qle_bool_iff; lra).
    rewrite Hd2. reflexivity.
Qed.

(** C2, as the code has it. With [0 < max_wait_time < poll_interval],
    two answers that decode to non-terminal snapshots and two fetches
    that take no negative time on the clock the poller reads, the
    poller fails with the timeout error after one call when the first
    fetch alone took [max_wait_time] or longer, and otherwise after
    exactly two calls: the deadline is looked at after a fetch, and the
    sleep of [poll_interval] that follows the first look carries the
    second fetch past it. It never fails without a call. *)
Theorem short_deadline_polls_once_or_twice
    (self : Client) (container_id : string) (poll_interval max_wait_time : Q)
    (r1 r2 : Reply) (rest : list Reply) (s1 s2 : MediaContainerStatus.t)
    (w : World) :
  0 < max_wait_time ->
  max_wait_time < poll_interval ->
  0 <= latency r1 ->
  0 <= latency r2 ->
  pending w = r1 :: r2 :: rest ->
  fetched (response r1) = inr s1 -> non_terminal (status s1) ->
  fetched (response r2) = inr s2 -> non_terminal (status s2) ->
  let out := _wait_for_container self container_id poll_interval max_wait_time w in
  let req := status_request self container_id in
  if Qle_bool max_wait_time (latency r1)
  then fst out = inl (ContainerError (msg_not_ready max_wait_time (status s1)))
       /\ calls_since w (snd out) = [(req, response r1)]
  else fst out = inl (ContainerError (msg_not_ready max_wait_time (status s2)))
       /\ calls_since w (snd out) = [(req, response r1); (req, response r2)].
Proof.
  intros Hmw Hpi Hl1 Hl2 Hpend Hf1 Hn1 Hf2 Hn2 out req. subst out.
  rewrite (short_deadline_run self container_id poll_interval max_wait_time
             r1 r2 rest s1 s2 w) by assumption.
  fold req. unfold calls_since.
  destruct (Qle_bool max_wait_time (latency r1)); cbn [fst snd]; split;
    try reflexivity.
  - rewrite trace_after_call, skipn_length_app.
    unfold next_response. rewrite Hpend. reflexivity.
  - rewrite trace_after_call. cbn [slept trace]. rewrite trace_after_call.
    rewrite <- app_assoc, skipn_length_app.
    unfold next_response, slept, after_call. rewrite Hpend. reflexivity.
Qed.

(** C2 at [max_wait_time = 1/2], [poll_interval = 1] and fetches of a
    tenth of a second: the timeout comes after the second call. *)
Lemma short_deadline_polls_once_or_twice_witness :
  fst (_wait_for_container demo_client "container_123" 1 (1 # 2)
         (fresh [demo_in_progress; demo_in_progress]))
  = inl (ContainerError (msg_not_ready (1 # 2) IN_PROGRESS))
  /\ calls_since (fresh [demo_in_progress; demo_in_progress])
       (snd (_wait_for_container demo_client "container_123" 1 (1 # 2)
               (fresh [demo_in_progress; demo_in_progress])))
     = [(status_request demo_client "container_123", response demo_in_progress);
        (status_request demo_client "container_123", response demo_in_progress)].
Proof.
  apply (short_deadline_polls_once_or_twice demo_client "container_123" 1 (1 # 2)
           demo_in_progress demo_in_progress [] demo_in_progress_snapshot
           demo_in_progress_snapshot (fresh [demo_in_progress; demo_in_progress])).
  - reflexivity.
  - reflexivity.
  - discriminate.
  - discriminate.
  - reflexivity.
  - reflexivity.
  - left; reflexivity.
  - reflexivity.
  - left; reflexivity.
Defined.

(** C2 as stated fails: at [max_wait_time = 1/2], [poll_interval = 1],
    with every answer IN_PROGRESS, the poller makes two status calls
    before the timeout error, not one. *)
Lemma short_deadline_counterexample :
  0 < 1 # 2 /\ 1 # 2 < 1
  /\ Forall keeps_polling [demo_in_progress; demo_in_progress; demo_in_progress]
  /\ fst (_wait_for_container demo_client "container_123" 1 (1 # 2)
            (fresh [demo_in_progress; demo_in_progress; demo_in_progress]))
     = inl (ContainerError (msg_not_ready (1 # 2) IN_PROGRESS))
  /\ List.length
       (calls_since (fresh [demo_in_progress; demo_in_progress; demo_in_progress])
          (snd (_wait_for_container demo_client "container_123" 1 (1 # 2)
                  (fresh [demo_in_progress; demo_in_progress; demo_in_progress]))))
     = 2%nat
  /\ List.length
       (calls_since (fresh [demo_in_progress; demo_in_progress; demo_in_progress])
          (snd (_wait_for_container demo_client "container_123" 1 (1 # 2)
                  (fresh [demo_in_progress; demo_in_progress; demo_in_progress]))))
     <> 1%nat.
Proof.
  split; [reflexivity |]. split; [reflexivity |].
  split; [repeat constructor; (eexists; split; [reflexivity | left; reflexivity]) |].
  split; [reflexivity |]. split; [reflexivity | discriminate].
Qed.

(** C3. Whenever a status call of the poller gets an answer that decodes
    to a snapshot with status ERROR, the poller fails with the
    container error "Container processing failed: " followed by the
    snapshot's [error_message], and that call is the last one it
    makes. *)
Theorem error_status_ends_polling
    (self : Client) (container_id : string) (poll_interval max_wait_time : Q)
    (w : World) (resp : option Response) (s : MediaContainerStatus.t) :
  In (status_request self container_id, resp)
     (calls_since w (snd (_wait_for_container self container_id
                            poll_interval max_wait_time w))) ->
  fetched resp = inr s ->
  status s = ERROR ->
  fst (_wait_for_container self container_id poll_interval max_wait_time w)
  = inl (ContainerError [Lit "Container processing failed: ";
                         fmt_opt (error_message s)])
  /\ (forall m, error_message s = Some m ->
                In (Lit m) (msg_processing_failed (error_message s)))
  /\ exists before,
      calls_since w (snd (_wait_for_container self container_id
                            poll_interval max_wait_time w))
      = before ++ [(status_request self container_id, resp)].
Proof.
  intros Hin Hf Hst.
  destruct (wait_for_container_stops_at self container_id poll_interval
              max_wait_time w resp Hin) as [Hset Hlast].
  - intros (s' & Hf' & Hnt). rewrite Hf in Hf'. inversion Hf'; subst s'.
    rewrite Hst in Hnt. destruct Hnt; discriminate.
  - unfold settles in Hset. rewrite Hf, Hst in Hset.
    split; [exact Hset |]. split; [| exact Hlast].
    intros m ->. cbn. auto.
Qed.

(** C3 at the sequence IN_PROGRESS, ERROR of the specification, with a
    FINISHED answer left unfetched behind them. *)
Lemma error_status_ends_polling_witness :
  fst (_wait_for_container demo_client "container_123" 1 60
         (fresh [demo_in_progress; demo_error; demo_finished]))
  = inl (ContainerError [Lit "Container processing failed: ";
                         Lit "Invalid video format"])
  /\ (forall m, error_message demo_error_snapshot = Some m ->
                In (Lit m) (msg_processing_failed (error_message demo_error_snapshot)))
  /\ exists before,
      calls_since (fresh [demo_in_progress; demo_error; demo_finished])
        (snd (_wait_for_container demo_client "container_123" 1 60
                (fresh [demo_in_progress; demo_error; demo_finished])))
      = before ++ [(status_request demo_client "container_123", response demo_error)].
Proof.
  apply (error_status_ends_polling demo_client "container_123" 1 60
           (fresh [demo_in_progress; demo_error; demo_finished])
           (response demo_error) demo_error_snapshot).
  - right; left; reflexivity.
  - reflexivity.
  - reflexivity.
Defined.

(** C8, as the code has it. A status string that is not the value of a
    member of [ContainerStatus] does not decode: the validator of the
    snapshot raises. When a status call of the poller gets such an
    answer, the poller fails with that error at once, makes no further
    call, and does not return a snapshot. And the poller makes a
    further status call only after an answer that decodes to a snapshot
    with status IN_PROGRESS or PUBLISHED. *)
Theorem unrecognized_status_is_rejected
    (self : Client) (container_id : string) (poll_interval max_wait_time : Q)
    (w : World) :
  (forall (resp : Response) (fields : list (string * json)) (s : string),
      In (status_request self container_id, Some resp)
         (calls_since w (snd (_wait_for_container self container_id
                                poll_interval max_wait_time w))) ->
      status_code resp = 200%Z ->
      body resp = Some (JObj fields) ->
      assoc "status" fields = Some (JStr s) ->
      ContainerStatus_.of_value s = None ->
      MediaContainerStatus.model_validate (JObj fields) = inl PydanticValidationError
      /\ fst (_wait_for_container self container_id poll_interval max_wait_time w)
         = inl PydanticValidationError
      /\ exists before,
          calls_since w (snd (_wait_for_container self container_id
                                poll_interval max_wait_time w))
          = before ++ [(status_request self container_id, Some resp)])
  /\ (forall (before after : list (Request * option Response))
             (req : Request) (resp : option Response),
        calls_since w (snd (_wait_for_container self container_id
                              poll_interval max_wait_time w))
        = before ++ (req, resp) :: after ->
        after <> [] ->
        exists snapshot,
          fetched resp = inr snapshot
          /\ (status snapshot = IN_PROGRESS \/ status snapshot = PUBLISHED)).
Proof.
  split.
  - intros resp fields s Hin Hcode Hbody Hstatus Hunk.
    assert (Hv : MediaContainerStatus.model_validate (JObj fields)
                 = inl PydanticValidationError).
    { unfold MediaContainerStatus.model_validate. rewrite Hstatus, Hunk.
      destruct (assoc "id" fields) as [[] |]; reflexivity. }
    assert (Hf : fetched (Some resp) = inl PydanticValidationError).
    { unfold fetched, Response_json. rewrite Hbody, Hcode. exact Hv. }
    destruct (wait_for_container_stops_at self container_id poll_interval
                max_wait_time w (Some resp) Hin) as [Hset Hlast].
    + intros (s' & Hf' & _). rewrite Hf in Hf'. discriminate.
    + unfold settles in Hset. rewrite Hf in Hset. auto.
  - intros before after req resp Hcalls Hafter.
    exact (followed_call_is_continuing self container_id poll_interval
             max_wait_time w before after (req, resp) Hcalls Hafter).
Qed.

(** C8 at an IN_PROGRESS answer followed by the status string
    "PROCESSING" and by an answer that would have let the poller
    finish. *)
Lemma unrecognized_status_is_rejected_witness :
  (MediaContainerStatus.model_validate
     (JObj [("id", JStr "container_123"); ("status", JStr "PROCESSING")])
   = inl PydanticValidationError
   /\ fst (_wait_for_container demo_client "container_123" 1 60
             (fresh [demo_in_progress; demo_unrecognized; demo_finished]))
      = inl PydanticValidationError
   /\ exists before,
       calls_since (fresh [demo_in_progress; demo_unrecognized; demo_finished])
         (snd (_wait_for_container demo_client "container_123" 1 60
                 (fresh [demo_in_progress; demo_unrecognized; demo_finished])))
       = before ++ [(status_request demo_client "container_123",
                     response demo_unrecognized)])
  /\ exists snapshot,
      fetched (response demo_in_progress) = inr snapshot
      /\ (status snapshot = IN_PROGRESS \/ status snapshot = PUBLISHED).
Proof.
  destruct (unrecognized_status_is_rejected demo_client "container_123" 1 60
              (fresh [demo_in_progress; demo_unrecognized; demo_finished]))
    as [Hrejected Hfollowed].
  split.
  - apply (Hrejected
             {| status_code := 200;
                body := Some (JObj [("id", JStr "container_123");
                                    ("status", JStr "PROCESSING")]) |}
             [("id", JStr "container_123"); ("status", JStr "PROCESSING")]
             "PROCESSING").
    + right; left; reflexivity.
    + reflexivity.
    + reflexivity.
    + reflexivity.
    + reflexivity.
  - apply (Hfollowed []
             [(status_request demo_client "container_123", response demo_unrecognized)]
             (status_request demo_client "container_123")
             (response demo_in_progress)).
    + reflexivity.
    + discriminate.
Defined.

(** C8 as stated fails: on the status string "PROCESSING" the decoder
    raises, and the poller, instead of polling on until the deadline as
    it does for IN_PROGRESS, stops after that one call with the
    decoder's error although later answers were available. *)
Lemma unrecognized_status_counterexample :
  ContainerStatus_.of_value "PROCESSING" = None
  /\ fetched (response demo_unrecognized) = inl PydanticValidationError
  /\ _wait_for_container demo_client "container_123" 1 60
       (fresh [demo_unrecognized; demo_in_progress; demo_finished])
     = (inl PydanticValidationError,
        {| clock := 0 + (1 # 10);
           pending := [demo_in_progress; demo_finished];
           trace := [(status_request demo_client "container_123",
                      response demo_unrecognized)] |})
  /\ fst (_wait_for_container demo_client "container_123" 1 60
            (fresh [demo_in_progress; demo_in_progress; demo_finished]))
     = inr demo_finished_snapshot.
Proof. repeat split; reflexivity. Qed.

(* ------------------------------------------------------------------ *)
(** ** The posts client, call by call *)

Section ClientsRuns.

Variable urlparse : string -> option ParseResult.
Variable Post_model_validate : json -> Result Post.t.
Variable self : Client.

Lemma create_container_eq (user_id : string) (media_type : MediaType)
    (text image_url video_url : option string) (is_carousel_item : bool)
    (children : option (list string)) (reply_to_id : option string)
    (reply_control : option ReplyControl) (w : World) :
  create_container urlparse self user_id media_type text image_url video_url
    is_carousel_item children reply_to_id reply_control w
  = match _validate_and_build_params urlparse self user_id media_type text image_url
            video_url is_carousel_item children reply_to_id reply_control with
    | inl e => (inl e, w)
    | inr params =>
        (created (next_response w), after_call (create_request user_id params) w)
    end.
Proof.
  unfold create_container, bind at 1, lift at 1.
  destruct (_validate_and_build_params _ _ _ _ _ _ _ _ _ _ _) as [e | params];
    [reflexivity |].
  unfold bind at 1. rewrite http_request_eq. fold (create_request user_id params).
  unfold created. destruct (next_response w) as [resp |]; [| reflexivity].
  unfold bind at 1, lift at 1.
  destruct (Response_json resp) as [e | data]; [reflexivity |].
  destruct (negb (status_code resp =? 200)%Z); [reflexivity |].
  unfold bind, lift. destruct (getitem data "id"); reflexivity.
Qed.

Lemma get_eq (post_id : json) (w : World) :
  get Post_model_validate self post_id None w
  = (post_fetched Post_model_validate (next_response w),
     after_call (post_request self post_id) w).
Proof.
  unfold get, bind at 1. rewrite http_request_eq. fold (post_request self post_id).
  unfold post_fetched. destruct (next_response w) as [resp |]; [| reflexivity].
  unfold bind at 1, lift at 1.
  destruct (Response_json resp) as [e | data]; [reflexivity |].
  destruct (negb (status_code resp =? 200)%Z); reflexivity.
Qed.

Lemma publish_eq (user_id container_id : string) (fetch_post : bool) (w : World) :
  publish Post_model_validate self user_id container_id fetch_post w
  = let w1 := after_call (publish_request self user_id container_id) w in
    match published (next_response w) with
    | inl e => (inl e, w1)
    | inr post_id =>
        if negb fetch_post then (Post.minimal post_id, w1)
        else match post_fetched Post_model_validate (next_response w1) with
             | inr p => (inr p, after_call (post_request self post_id) w1)
             | inl e =>
                 (if str_raises e then inl TypeError else Post.minimal post_id,
                  after_call (post_request self post_id) w1)
             end
    end.
Proof.
  unfold publish, bind at 1. rewrite http_request_eq.
  fold (publish_request self user_id container_id).
  unfold published. destruct (next_response w) as [resp |]; [| reflexivity].
  unfold bind at 1, lift at 1.
  destruct (Response_json resp) as [e | data]; [reflexivity |].
  destruct (negb (status_code resp =? 200)%Z); [reflexivity |].
  unfold bind at 1, lift at 1.
  destruct (getitem data "id") as [e | post_id]; [reflexivity |].
  cbv zeta. destruct (negb fetch_post); [reflexivity |].
  unfold try_except. rewrite get_eq.
  destruct (post_fetched _ _) as [e | p]; [| reflexivity].
  unfold raise, lift. destruct (str_raises e); reflexivity.
Qed.

Lemma create_and_publish_eq (user_id : string)
    (text image_url video_url reply_to_id : option string)
    (reply_control : option ReplyControl) (wait_for_ready : bool)
    (poll_interval max_wait_time : Q) (w : World) :
  create_and_publish urlparse Post_model_validate self user_id text image_url
    video_url reply_to_id reply_control wait_for_ready poll_interval max_wait_time w
  = match _validate_publish_params text image_url video_url with
    | inl e => (inl e, w)
    | inr _ =>
    match _validate_and_build_params urlparse self user_id
            (_determine_media_type text image_url video_url)
            text image_url video_url false None reply_to_id reply_control with
    | inl e => (inl e, w)
    | inr params =>
        let w1 := after_call (create_request user_id params) w in
        match created (next_response w) with
        | inl e => (inl e, w1)
        | inr container =>
            if wait_for_ready && truthy video_url then
              match _wait_for_container self (MediaContainer.id container)
                      poll_interval max_wait_time w1 with
              | (inl e, w2) => (inl e, w2)
              | (inr _, w2) =>
                  publish Post_model_validate self user_id
                    (MediaContainer.id container) true w2
              end
            else publish Post_model_validate self user_id
                   (MediaContainer.id container) true w1
        end
    end end.
Proof.
  unfold create_and_publish, bind at 1, lift at 1.
  destruct (_validate_publish_params text image_url video_url) as [e | []];
    [reflexivity |].
  unfold bind at 1. rewrite create_container_eq.
  destruct (_validate_and_build_params _ _ _ _ _ _ _ _ _ _ _) as [e | params];
    [reflexivity |].
  cbv zeta. destruct (created (next_response w)) as [e | container]; [reflexivity |].
  destruct (wait_for_ready && truthy video_url).
  - unfold bind at 1. unfold bind at 1.
    destruct (_wait_for_container _ _ _ _ _) as [[e | s] w2]; reflexivity.
  - reflexivity.
Qed.

Lemma extends_refl (w : World) : extends w w.
Proof. exists []. rewrite app_nil_r. reflexivity. Qed.

Lemma extends_trans (w1 w2 w3 : World) : extends w1 w2 -> extends w2 w3 -> extends w1 w3.
Proof.
  intros [l1 H1] [l2 H2]. exists (l1 ++ l2). rewrite H2, H1, app_assoc. reflexivity.
Qed.

Lemma extends_after_call (req : Request) (w : World) : extends w (after_call req w).
Proof. eexists. apply trace_after_call. Qed.

Lemma wait_for_container_extends (container_id : string)
    (poll_interval max_wait_time : Q) (w : World) :
  extends w (snd (_wait_for_container self container_id poll_interval max_wait_time w)).
Proof.
  destruct (_wait_for_container _ _ _ _ w) as [r w'] eqn:Hrun.
  unfold _wait_for_container, bind, time_time in Hrun.
  apply wait_loop_shape in Hrun; [| lia].
  destruct Hrun as (earlier & last & Htr & _). cbn [snd]. eexists. exact Htr.
Qed.

Lemma publish_extends (user_id container_id : string) (fetch_post : bool) (w : World) :
  extends w (snd (publish Post_model_validate self user_id container_id fetch_post w)).
Proof.
  rewrite publish_eq. cbv zeta.
  destruct (published (next_response w)); [apply extends_after_call |].
  destruct (negb fetch_post); [apply extends_after_call |].
  destruct (post_fetched _ _); cbn [snd];
    (eapply extends_trans; [apply extends_after_call | apply extends_after_call]).
Qed.

Lemma calls_since_refl (w : World) : calls_since w w = [].
Proof. unfold calls_since. apply skipn_all. Qed.

Lemma calls_since_extends (w w1 w' : World) (l : list (Request * option Response)) :
  trace w1 = trace w ++ l -> extends w1 w' ->
  exists l', calls_since w w' = l ++ l' /\ calls_since w1 w' = l'.
Proof.
  intros H1 [l' H2]. exists l'. unfold calls_since.
  rewrite H2, skipn_length_app. rewrite H1, <- app_assoc, skipn_length_app. auto.
Qed.

Lemma build_params_media_type (user_id : string) (media_type : MediaType)
    (text image_url video_url : option string) (is_carousel_item : bool)
    (children : option (list string)) (reply_to_id : option string)
    (reply_control : option ReplyControl) (params : list (string * json)) :
  _validate_and_build_params urlparse self user_id media_type text image_url
    video_url is_carousel_item children reply_to_id reply_control = inr params ->
  assoc "media_type" params = Some (JStr (MediaType_.value media_type)).
Proof.
  unfold _validate_and_build_params.
  destruct (validate_text_length text MAX_TEXT_LENGTH); [discriminate |].
  destruct (match reply_control with Some _ => _ | None => _ end); [discriminate |].
  destruct (if MediaType_.eqb media_type IMAGE then _ else _); [discriminate |].
  intros H. inversion H.
  destruct text, image_url, video_url, is_carousel_item, reply_to_id, reply_control,
           children as [[| c cs] |]; reflexivity.
Qed.

(** Telling the requests apart. *)
Lemma create_request_not_publish (user_id : string) (ps : list (string * json)) :
  ~ is_publish (create_request user_id ps).
Proof. intros [_ [u Hu]]. inversion Hu. Qed.

Lemma status_request_is_not_publish (container_id : string) :
  ~ is_publish (status_request self container_id).
Proof. intros [Hm _]. discriminate Hm. Qed.

(** The calls of [publish]: the publish call, then at most the fetch of
    the post. *)
Lemma publish_calls (user_id container_id : string) (fetch_post : bool) (w : World) :
  let out := publish Post_model_validate self user_id container_id fetch_post w in
  let w1 := after_call (publish_request self user_id container_id) w in
  calls_since w (snd out)
  = (publish_request self user_id container_id, next_response w)
      :: match published (next_response w) with
         | inl _ => []
         | inr post_id =>
             if negb fetch_post then []
             else [(post_request self post_id, next_response w1)]
         end.
Proof.
  cbv zeta. rewrite publish_eq. cbv zeta. unfold calls_since.
  destruct (published (next_response w)) as [e | post_id]; cbn [snd].
  - rewrite trace_after_call. apply skipn_length_app.
  - destruct (negb fetch_post); cbn [snd].
    + rewrite trace_after_call. apply skipn_length_app.
    + destruct (post_fetched _ _); cbn [snd];
        rewrite !trace_after_call, <- app_assoc; apply skipn_length_app.
Qed.

Lemma publish_calls_not_status (user_id cid : string) (fetch_post : bool) (w : World)
    (container_id : string) (resp : option Response) :
  ~ In (status_request self container_id, resp)
       (calls_since w (snd (publish Post_model_validate self user_id cid fetch_post w))).
Proof.
  rewrite publish_calls. cbv zeta. intros [H | H].
  - inversion H.
  - destruct (published (next_response w)); [destruct H |].
    destruct (negb fetch_post); [destruct H |].
    destruct H as [H | []]. inversion H.
Qed.



End ClientsRuns.

(* ------------------------------------------------------------------ *)
(** ** The orchestrator: statements of the specification *)

Section Orchestrator.

Variable urlparse : string -> option ParseResult.
Variable Post_model_validate : json -> Result Post.t.
Variable self : Client.

(** C5. When the text is longer than 500 characters, or when none of
    text, image url and video url is supplied (each is [None] or
    empty), [create_and_publish] fails with a validation error and
    leaves the world as it found it: no call reaches the transport, the
    clock is not read, nothing sleeps. *)
Theorem validation_fails_before_any_call (user_id : string)
    (text image_url video_url reply_to_id : option string)
    (reply_control : option ReplyControl) (wait_for_ready : bool)
    (poll_interval max_wait_time : Q) (w : World) :
  (exists t, text = Some t /\ (500 < len t)%Z)
  \/ (truthy text = false /\ truthy image_url = false /\ truthy video_url = false) ->
  exists message,
    create_and_publish urlparse Post_model_validate self user_id text image_url
      video_url reply_to_id reply_control wait_for_ready poll_interval max_wait_time w
    = (inl (ValidationError message), w).
Proof.
  intros H. rewrite create_and_publish_eq.
  unfold _validate_publish_params, validate_text_length, MAX_TEXT_LENGTH.
  destruct H as [(t & -> & Hlen) | (Ht & Hi & Hv)].
  - apply Z.ltb_lt in Hlen. rewrite Hlen. eauto.
  - rewrite Ht, Hi, Hv. cbn [orb negb].
    destruct text as [t |]; [| eauto].
    destruct (500 <? len t)%Z; eauto.
Qed.

(** C7. A video url that is present and not empty gives VIDEO whatever
    the image url; without one, an image url that is present and not
    empty gives IMAGE; without either, TEXT. When [create_and_publish]
    gets as far as a call, the first call is the container creation and
    its [media_type] parameter is the type so resolved. *)
Theorem media_type_precedence (user_id : string)
    (text image_url video_url reply_to_id : option string)
    (reply_control : option ReplyControl) (wait_for_ready : bool)
    (poll_interval max_wait_time : Q) (w : World) :
  (truthy video_url = true ->
   _determine_media_type text image_url video_url = VIDEO)
  /\ (truthy video_url = false -> truthy image_url = true ->
      _determine_media_type text image_url video_url = IMAGE)
  /\ (truthy video_url = false -> truthy image_url = false ->
      _determine_media_type text image_url video_url = TEXT)
  /\ match calls_since w
             (snd (create_and_publish urlparse Post_model_validate self user_id
                     text image_url video_url reply_to_id reply_control
                     wait_for_ready poll_interval max_wait_time w)) with
     | [] => True
     | (req, _) :: _ =>
         method req = POST
         /\ url req = [Lit "/"; Lit user_id; Lit "/threads"]
         /\ assoc "media_type" (params req)
            = Some (JStr (MediaType_.value
                            (_determine_media_type text image_url video_url)))
     end.
Proof.
  unfold _determine_media_type.
  split; [intros ->; reflexivity |].
  split; [intros -> ->; reflexivity |].
  split; [intros -> ->; reflexivity |].
  rewrite create_and_publish_eq.
  destruct (_validate_publish_params text image_url video_url);
    [rewrite calls_since_refl; exact I |].
  destruct (_validate_and_build_params _ _ _ _ _ _ _ _ _ _ _) as [e | ps] eqn:Hp;
    [rewrite calls_since_refl; exact I |].
  apply build_params_media_type in Hp.
  cbv zeta.
  set (w1 := after_call (create_request user_id ps) w).
  assert (Hfirst : forall w', extends w1 w' ->
            match calls_since w w' with
            | [] => True
            | (req, _) :: _ =>
                method req = POST /\ url req = [Lit "/"; Lit user_id; Lit "/threads"]
                /\ assoc "media_type" (params req)
                   = Some (JStr (MediaType_.value
                                   (if truthy video_url then VIDEO
                                    else if truthy image_url then IMAGE else TEXT)))
            end).
  { intros w' Hext.
    destruct (calls_since_extends w w1 w' _ (trace_after_call _ w) Hext)
      as (l' & -> & _).
    cbn. auto. }
  destruct (created (next_response w)) as [e | container];
    [apply Hfirst, extends_refl |].
  destruct (wait_for_ready && truthy video_url).
  - pose proof (wait_for_container_extends self (MediaContainer.id container)
                  poll_interval max_wait_time w1) as Hw.
    destruct (_wait_for_container _ _ _ _ w1) as [[e | s] w2]; cbn [snd] in *.
    + apply Hfirst, Hw.
    + apply Hfirst. eapply extends_trans; [exact Hw | apply publish_extends].
  - apply Hfirst, publish_extends.
Qed.

(** C4. Whenever a status call made during [create_and_publish] gets an
    answer that decodes to a snapshot with status EXPIRED, the
    operation fails with the container error "Container expired before
    publishing", and no call to a publish endpoint is among the calls
    it made. Such a call only happens when [wait_for_ready] is set and
    a video url was given. *)
Theorem expired_status_prevents_publish (user_id : string)
    (text image_url video_url reply_to_id : option string)
    (reply_control : option ReplyControl) (wait_for_ready : bool)
    (poll_interval max_wait_time : Q) (w : World)
    (container_id : string) (resp : option Response) (s : MediaContainerStatus.t) :
  In (status_request self container_id, resp)
     (calls_since w
        (snd (create_and_publish urlparse Post_model_validate self user_id
                text image_url video_url reply_to_id reply_control
                wait_for_ready poll_interval max_wait_time w))) ->
  fetched resp = inr s ->
  status s = EXPIRED ->
  fst (create_and_publish urlparse Post_model_validate self user_id
         text image_url video_url reply_to_id reply_control
         wait_for_ready poll_interval max_wait_time w)
  = inl (ContainerError [Lit "Container expired before publishing"])
  /\ wait_for_ready && truthy video_url = true
  /\ forall call,
       In call (calls_since w
                  (snd (create_and_publish urlparse Post_model_validate self user_id
                          text image_url video_url reply_to_id reply_control
                          wait_for_ready poll_interval max_wait_time w))) ->
       ~ is_publish (fst call).
Proof.
  intros Hin Hf Hst.
  assert (Hstop : ~ continuing resp).
  { intros (s' & Hf' & Hnt). rewrite Hf in Hf'. inversion Hf'; subst s'.
    rewrite Hst in Hnt. destruct Hnt; discriminate. }
  rewrite create_and_publish_eq in *.
  destruct (_validate_publish_params text image_url video_url);
    [rewrite calls_since_refl in Hin; destruct Hin |].
  destruct (_validate_and_build_params _ _ _ _ _ _ _ _ _ _ _) as [e | ps];
    [rewrite calls_since_refl in Hin; destruct Hin |].
  cbv zeta in *.
  set (w1 := after_call (create_request user_id ps) w) in *.
  assert (Hsplit : forall w', extends w1 w' ->
            calls_since w w'
            = (create_request user_id ps, next_response w) :: calls_since w1 w').
  { intros w' Hext.
    destruct (calls_since_extends w w1 w' _ (trace_after_call _ w) Hext)
      as (l' & -> & ->). reflexivity. }
  destruct (created (next_response w)) as [e | container].
  { cbn [snd] in Hin. rewrite (Hsplit w1 (extends_refl w1)) in Hin.
    rewrite calls_since_refl in Hin. destruct Hin as [Hin | []]. inversion Hin. }
  destruct (wait_for_ready && truthy video_url).
  - pose proof (wait_for_container_extends self (MediaContainer.id container)
                  poll_interval max_wait_time w1) as Hext.
    pose proof (wait_for_container_stops_at self (MediaContainer.id container)
                  poll_interval max_wait_time w1 resp) as Hlast.
    pose proof (wait_for_container_shape self (MediaContainer.id container)
                  poll_interval max_wait_time w1) as Hshape.
    destruct (_wait_for_container _ _ _ _ w1) as [[e | s'] w2]; cbn [fst snd] in *.
    + rewrite (Hsplit w2 Hext) in *.
      destruct Hin as [Hin | Hin]; [inversion Hin |].
      destruct (Hshape _ _ eq_refl) as (earlier & last & Hcalls & _).
      assert (Hcid : container_id = MediaContainer.id container).
      { rewrite Hcalls in Hin. apply in_map_iff in Hin.
        destruct Hin as (x & Hx & _). inversion Hx. reflexivity. }
      subst container_id. destruct (Hlast Hin Hstop) as [Hset _].
      unfold settles in Hset. rewrite Hf, Hst in Hset.
      inversion Hset; subst e.
      split; [reflexivity |]. split; [reflexivity |].
      intros call [<- | Hc]; [apply create_request_not_publish |].
      rewrite Hcalls in Hc. apply in_map_iff in Hc. destruct Hc as (x & <- & _).
      apply status_request_is_not_publish.
    + exfalso.
      assert (Hext' : extends w1
                        (snd (publish Post_model_validate self user_id
                                (MediaContainer.id container) true w2)))
        by (eapply extends_trans; [exact Hext | apply publish_extends]).
      rewrite (Hsplit _ Hext') in Hin.
      destruct Hin as [Hin | Hin]; [inversion Hin |].
      destruct Hext as [l Hl].
      destruct (calls_since_extends w1 w2 _ l Hl
                  (publish_extends Post_model_validate self user_id
                     (MediaContainer.id container) true w2))
        as (l' & Hall & Hl').
      rewrite Hall in Hin. apply in_app_or in Hin. destruct Hin as [Hin | Hin].
      * assert (Hl2 : calls_since w1 w2 = l)
          by (unfold calls_since; rewrite Hl; apply skipn_length_app).
        destruct (Hshape _ _ eq_refl) as (earlier & last & Hcalls & _).
        rewrite Hl2 in *.
        assert (Hcid : container_id = MediaContainer.id container).
        { rewrite Hcalls in Hin. apply in_map_iff in Hin.
          destruct Hin as (x & Hx & _). inversion Hx. reflexivity. }
        subst container_id. destruct (Hlast Hin Hstop) as [Hset _].
        unfold settles in Hset. rewrite Hf, Hst in Hset. discriminate Hset.
      * rewrite <- Hl' in Hin. exact (publish_calls_not_status _ _ _ _ _ _ _ _ Hin).
  - exfalso. rewrite (Hsplit _ (publish_extends _ _ _ _ _ _)) in Hin.
    destruct Hin as [Hin | Hin]; [inversion Hin |].
    exact (publish_calls_not_status _ _ _ _ _ _ _ _ Hin).
Qed.


(** C10. Whenever [publish] returns a post although it did not fetch
    one, because [fetch_post] was unset or because the fetch failed,
    that post is the one made of the id alone and its [media_type] is
    [TEXT_POST], whatever container was published. It does return that
    post when [fetch_post] is unset, and when the fetch failed with an
    error the handler can format, provided the id is a string. *)
Theorem minimal_post_is_text_post (user_id container_id : string)
    (fetch_post : bool) (w : World) (post_id : json) :
  published (next_response w) = inr post_id ->
  fetch_post = false
  \/ (exists e,
        fst (get Post_model_validate self post_id None
               (after_call (publish_request self user_id container_id) w)) = inl e) ->
  (forall p,
      fst (publish Post_model_validate self user_id container_id fetch_post w) = inr p ->
      Post.minimal post_id = inr p
      /\ Post.media_type p = TEXT_POST
      /\ MediaType_.value (Post.media_type p) = "TEXT_POST")
  /\ (fetch_post = false
       \/ (exists e,
             fst (get Post_model_validate self post_id None
                    (after_call (publish_request self user_id container_id) w)) = inl e
             /\ str_raises e = false) ->
       fst (publish Post_model_validate self user_id container_id fetch_post w)
       = Post.minimal post_id).
Proof.
  intros Hpub Hcase.
  assert (Hmin : forall p, Post.minimal post_id = inr p ->
                           Post.media_type p = TEXT_POST
                           /\ MediaType_.value (Post.media_type p) = "TEXT_POST").
  { intros p Hp. unfold Post.minimal in Hp.
    destruct post_id; try discriminate. inversion Hp. split; reflexivity. }
  rewrite publish_eq. cbv zeta. rewrite Hpub. split.
  - intros p Hp.
    assert (Hp' : Post.minimal post_id = inr p).
    { destruct fetch_post; cbn [negb] in Hp; [| exact Hp].
      destruct Hcase as [Hf | [e He]]; [discriminate Hf |].
      rewrite get_eq in He. cbn [fst] in He. rewrite He in Hp. cbn [fst] in Hp.
      destruct (str_raises e); [discriminate Hp | exact Hp]. }
    split; [exact Hp' | exact (Hmin p Hp')].
  - intros [-> | (e & He & Hstr)]; [reflexivity |].
    destruct fetch_post; [| reflexivity]. cbn [negb].
    rewrite get_eq in He. cbn [fst] in He. rewrite He. cbn [fst].
    rewrite Hstr. reflexivity.
Qed.

End Orchestrator.

(** C5 at the text of 501 characters of the specification. *)
Lemma validation_fails_before_any_call_witness :
  exists message,
    create_and_publish demo_urlparse demo_validate demo_client "user_123"
      (Some demo_long_text) None None None None true 1 60 (fresh [demo_container_reply])
    = (inl (ValidationError message), fresh [demo_container_reply]).
Proof.
  apply (validation_fails_before_any_call demo_urlparse demo_validate demo_client
           "user_123" (Some demo_long_text) None None None None true 1 60
           (fresh [demo_container_reply])).
  left. exists demo_long_text. split; reflexivity.
Defined.

(** C7 with both an image url and a video url. *)
Lemma media_type_precedence_witness :
  _determine_media_type (Some "Hello") demo_image demo_video = VIDEO.
Proof.
  apply (media_type_precedence demo_urlparse demo_validate demo_client "user_123"
           (Some "Hello") demo_image demo_video None None true 1 60
           (fresh [demo_container_reply])).
  reflexivity.
Defined.

(** C4 at Scenario C. *)
Lemma expired_status_prevents_publish_witness :
  fst (create_and_publish demo_urlparse demo_validate demo_client "user_123"
         None None demo_video None None true 1 60 scenario_c)
  = inl (ContainerError [Lit "Container expired before publishing"])
  /\ true && truthy demo_video = true
  /\ forall call,
       In call (calls_since scenario_c
                  (snd (create_and_publish demo_urlparse demo_validate demo_client
                          "user_123" None None demo_video None None true 1 60
                          scenario_c))) ->
       ~ is_publish (fst call).
Proof.
  apply (expired_status_prevents_publish demo_urlparse demo_validate demo_client
           "user_123" None None demo_video None None true 1 60 scenario_c
           "container_123" (response demo_expired)
           {| MediaContainerStatus.id := "container_123";
              MediaContainerStatus.status := EXPIRED;
              MediaContainerStatus.error_message := None |}).
  - right; left; reflexivity.
  - reflexivity.
  - reflexivity.
Defined.



(** The other way the fallback fails: a publish call answered with
    status 200 and a post id that is a number. After a failed fetch the
    handler builds the post of that id alone, which the [Post] model
    refuses. *)
Example numeric_post_id_fails_the_fallback :
  published (next_response (fresh [demo_numeric_id_reply; error_reply 500]))
  = inr (JNum 123)
  /\ fst (get demo_validate demo_client (JNum 123) None
            (after_call (publish_request demo_client "user_123" "container_789")
               (fresh [demo_numeric_id_reply; error_reply 500])))
     = inl (APIError ThreadsAPIError (JStr "Server error") 500 JNull JNull JNull)
  /\ fst (publish demo_validate demo_client "user_123" "container_789" true
            (fresh [demo_numeric_id_reply; error_reply 500]))
     = inl PydanticValidationError.
Proof. repeat split; reflexivity. Qed.

(** C10 at a publish whose fetch of the post is answered with status
    500. *)
Lemma minimal_post_is_text_post_witness :
  (forall p,
      fst (publish demo_validate demo_client "user_123" "container_789" true
             (fresh [demo_publish_reply; error_reply 500])) = inr p ->
      Post.minimal (JStr "post_456") = inr p
      /\ Post.media_type p = TEXT_POST
      /\ MediaType_.value (Post.media_type p) = "TEXT_POST")
  /\ fst (publish demo_validate demo_client "user_123" "container_789" true
            (fresh [demo_publish_reply; error_reply 500]))
     = Post.minimal (JStr "post_456").
Proof.
  destruct (minimal_post_is_text_post demo_validate demo_client
              "user_123" "container_789" true
              (fresh [demo_publish_reply; error_reply 500]) (JStr "post_456"))
    as [Hall Hret].
  - reflexivity.
  - right. exists (APIError ThreadsAPIError (JStr "Server error") 500 JNull JNull JNull).
    reflexivity.
  - split; [exact Hall |]. apply Hret. right.
    exists (APIError ThreadsAPIError (JStr "Server error") 500 JNull JNull JNull).
    split; reflexivity.
Defined.

(** A video post whose details cannot be fetched comes back labelled
    [TEXT_POST]. *)
Example video_post_labelled_text_post :
  exists p,
    fst (create_and_publish demo_urlparse demo_validate demo_client "user_123"
           None None demo_video None None true 1 60
           (fresh [demo_container_reply; demo_finished; demo_publish_reply;
                   error_reply 500]))
    = inr p
    /\ Post.id p = "post_456"
    /\ Post.media_type p = TEXT_POST.
Proof. eexists. repeat split; reflexivity. Qed.

(* ------------------------------------------------------------------ *)
(** ** The rate limiter *)

Module RateLimiterFacts.

Import RateLimiter.

Lemma popleft_kept (P : Q -> Prop) (cutoff : Q) (ts : list Q) :
  Forall P ts -> Forall P (popleft_while_old cutoff ts).
Proof.
  induction 1 as [| a l Ha Hl IH]; cbn; [constructor |].
  destruct (Qlt_bool a cutoff); [exact IH | constructor; assumption].
Qed.

Lemma popleft_ascending (cutoff : Q) (ts : list Q) :
  ascending ts -> ascending (popleft_while_old cutoff ts).
Proof.
  induction ts as [| a l IH]; cbn; [trivial |].
  intros [Ha Hl]. destruct (Qlt_bool a cutoff); [apply IH, Hl | split; assumption].
Qed.

(** On timestamps in ascending order the pruning leaves none below the
    cutoff. *)
Lemma popleft_recent (cutoff : Q) (ts : list Q) :
  ascending ts -> Forall (fun t => cutoff <= t) (popleft_while_old cutoff ts).
Proof.
  induction ts as [| a l IH]; cbn; [constructor |].
  intros [Ha Hl]. destruct (Qlt_bool a cutoff) eqn:E; [apply IH, Hl |].
  apply Qlt_bool_false in E. constructor; [exact E |].
  eapply Forall_impl; [| exact Ha]. cbn. intros b Hb. lra.
Qed.

Lemma cleanup_in_window (self : t) (now : Q) :
  clock_kept now self -> in_window now (_cleanup_old_timestamps self now).
Proof.
  intros [Hasc Hle]. unfold in_window, _cleanup_old_timestamps. cbn.
  apply Forall_and; [apply popleft_recent, Hasc | apply popleft_kept, Hle].
Qed.

Lemma cleanup_clock_kept (self : t) (now : Q) :
  clock_kept now self -> clock_kept now (_cleanup_old_timestamps self now).
Proof.
  intros [Hasc Hle]. split; cbn; [apply popleft_ascending, Hasc | apply popleft_kept, Hle].
Qed.

Lemma ascending_snoc (ts : list Q) (now : Q) :
  ascending ts -> Forall (fun t => t <= now) ts -> ascending (ts ++ [now]).
Proof.
  induction ts as [| a l IH]; cbn; [intros; split; [constructor | trivial] |].
  intros [Ha Hl] Hle. inversion Hle; subst. split; [| apply IH; assumption].
  apply Forall_app. split; [exact Ha | constructor; [assumption | constructor]].
Qed.

Lemma clock_kept_later (self : t) (now later : Q) :
  clock_kept now self -> now <= later -> clock_kept later self.
Proof.
  intros [Hasc Hle] Hmono. split; [exact Hasc |].
  eapply Forall_impl; [| exact Hle]. cbn. intros. lra.
Qed.

(** Recording at the time read keeps the timestamps in order. *)
Lemma record_request_clock_kept (self : t) (now : Q) :
  clock_kept now self -> clock_kept now (record_request now self).
Proof.
  intros [Hasc Hle]. split; cbn.
  - apply ascending_snoc; assumption.
  - apply Forall_app. split; [exact Hle | constructor; [lra | constructor]].
Qed.

(** C9, as the code has it. With a clock that never ran backwards,
    after [can_proceed], [remaining] and [usage] return every retained
    timestamp lies in the window ending at the time they read. So it
    does for [wait_if_needed] at the time it read, which is when it
    returns if it did not sleep. When it sleeps it does not prune
    again: at the nominal end of the sleep the timestamps are still in
    the window, the oldest on its edge, and at any later time the
    oldest is outside. After [reset] nothing is retained.
    [record_request] does not prune: it appends the time it reads to
    the timestamps as they are, and the next read prunes them. *)
Theorem reads_prune_to_window (self : t) (now : Q) :
  clock_kept now self ->
  in_window now (snd (can_proceed now self))
  /\ in_window now (snd (remaining now self))
  /\ in_window now (snd (usage now self))
  /\ (forall waited, fst (wait_if_needed now self) = inr waited ->
        in_window now (snd (wait_if_needed now self))
        /\ in_window (now + waited) (snd (wait_if_needed now self))
        /\ (0 < waited ->
            forall later, now + waited < later ->
                          ~ in_window later (snd (wait_if_needed now self))))
  /\ (forall at_reset, in_window at_reset (reset self))
  /\ _timestamps (record_request now self) = _timestamps self ++ [now]
  /\ (forall later, now <= later ->
                    in_window later (snd (usage later (record_request now self)))).
Proof.
  intros Hkept.
  pose proof (cleanup_in_window self now Hkept) as Hwin.
  split; [exact Hwin |]. split; [exact Hwin |]. split; [exact Hwin |].
  split; [| split; [intros; constructor | split; [reflexivity |]]].
  - intros waited.
    destruct (cleanup_clock_kept self now Hkept) as [Hasc _].
    unfold wait_if_needed, in_window, count, _cleanup_old_timestamps in *.
    cbn [max_requests window_seconds _timestamps] in *.
    set (ts := popleft_while_old (now - window_seconds self) (_timestamps self)) in *.
    destruct (Z.of_nat (List.length ts) <? max_requests self)%Z.
    + cbn [fst snd window_seconds _timestamps]. intros Hw. inversion Hw; subst waited.
      split; [exact Hwin |]. split; [| intros Hpos; lra].
      eapply Forall_impl; [| exact Hwin]. cbn. intros t0 [A B]. split; lra.
    + destruct ts as [| oldest rest]; [discriminate |].
      destruct Hasc as [Hold _].
      inversion Hwin as [| ? ? [A B] Hrest]; subst.
      destruct (Qlt_bool 0 (oldest + window_seconds self - now)) eqn:Hpos;
        cbn [fst snd window_seconds _timestamps]; intros Hw; inversion Hw; subst waited;
        (split; [exact Hwin |]); (split; [| intros Hlt; try lra]).
      * apply Qlt_bool_true in Hpos.
        constructor; [split; lra |].
        rewrite Forall_forall in *. intros t0 Ht0.
        specialize (Hold t0 Ht0). destruct (Hrest t0 Ht0) as [C D]. split; lra.
      * intros later Hlater Hin. inversion Hin as [| ? ? [C _] _]; subst. lra.
      * eapply Forall_impl; [| exact Hwin]. cbn. intros t0 [C D]. split; lra.
  - intros later Hlater. apply cleanup_in_window.
    apply (clock_kept_later _ now later); [| exact Hlater].
    apply record_request_clock_kept, Hkept.
Qed.

(** C9 for a full limiter that recorded requests at seconds 0, 4 and 12,
    read at second 13: the reads drop the request of second 0, and
    [wait_if_needed] sleeps one second. *)
Lemma reads_prune_to_window_witness :
  _timestamps (snd (usage 13 demo_limiter_aged)) = [4; 12]
  /\ fst (wait_if_needed 13 demo_limiter_aged) = inr 1
  /\ in_window 13 (snd (can_proceed 13 demo_limiter_aged))
  /\ in_window 13 (snd (remaining 13 demo_limiter_aged))
  /\ in_window 13 (snd (usage 13 demo_limiter_aged))
  /\ (forall waited, fst (wait_if_needed 13 demo_limiter_aged) = inr waited ->
        in_window 13 (snd (wait_if_needed 13 demo_limiter_aged))
        /\ in_window (13 + waited) (snd (wait_if_needed 13 demo_limiter_aged))
        /\ (0 < waited ->
            forall later, 13 + waited < later ->
                          ~ in_window later (snd (wait_if_needed 13 demo_limiter_aged))))
  /\ (forall at_reset, in_window at_reset (reset demo_limiter_aged))
  /\ _timestamps (record_request 13 demo_limiter_aged)
     = _timestamps demo_limiter_aged ++ [13]
  /\ (forall later, 13 <= later ->
                    in_window later (snd (usage later (record_request 13 demo_limiter_aged)))).
Proof.
  split; [reflexivity |]. split; [reflexivity |].
  apply (reads_prune_to_window demo_limiter_aged 13).
  split; cbn.
  - repeat split; repeat constructor; discriminate.
  - repeat constructor; discriminate.
Defined.

(** C9 as stated fails for [record_request]: a limiter with a window of
    ten seconds that recorded a request at second 0 and records another
    at second 100 retains both, and the first is ninety seconds outside
    the window. *)
Lemma record_request_counterexample :
  clock_kept 100 demo_limiter_used
  /\ _timestamps (record_request 100 demo_limiter_used) = [0; 100]
  /\ ~ in_window 100 (record_request 100 demo_limiter_used).
Proof.
  split; [| split; [reflexivity |]].
  - split; cbn.
    + split; [constructor | exact I].
    + constructor; [discriminate | constructor].
  - intros H. inversion H as [| ? ? [A _] _]. cbn in A. lra.
Qed.

(** The other place where C9 as stated fails: [wait_if_needed] after
    its sleep. A full limiter with requests at seconds 0 and 4, asked
    at second 5, sleeps five seconds and returns with both timestamps;
    at second 11 the first is outside the window of ten seconds. *)
Example wait_if_needed_leaves_expired :
  clock_kept 5 demo_limiter_full
  /\ wait_if_needed 5 demo_limiter_full = (inr 5, demo_limiter_full)
  /\ ~ in_window 11 (snd (wait_if_needed 5 demo_limiter_full)).
Proof.
  split; [| split; [reflexivity |]].
  - split; cbn; repeat split; repeat constructor; discriminate.
  - intros H. inversion H as [| ? ? [A _] _]. cbn in A. lra.
Qed.

(** P7 of the specification: two requests fill a limiter of two per
    tenth of a second; it lets the next one through once the window has
    passed. *)
Example window_of_two :
  fst (can_proceed 0
         (record_request 0
            (record_request 0
               {| max_requests := 2; window_seconds := 1 # 10; _timestamps := [] |})))
  = false
  /\ fst (can_proceed (15 # 100)
            (record_request 0
               (record_request 0
                  {| max_requests := 2; window_seconds := 1 # 10; _timestamps := [] |})))
     = true.
Proof. split; reflexivity. Qed.

End RateLimiterFacts.

(* ------------------------------------------------------------------ *)
(** ** More on the poller *)

Lemma raise_for_error_not_container_error (data : json) (code : Z) (m : fstring) :
  raise_for_error data code <> ContainerError m.
Proof.
  unfold raise_for_error, dict_get.
  destruct data; try discriminate.
  destruct (assoc "error" fields) as [[] |]; try discriminate;
    repeat match goal with
           | |- context [assoc ?k ?f] => destruct (assoc k f)
           end; discriminate.
Qed.

Lemma fetched_not_container_error (resp : option Response) (m : fstring) :
  fetched resp <> inl (ContainerError m).
Proof.
  unfold fetched, Response_json.
  destruct resp as [resp |]; [| discriminate].
  destruct (body resp) as [data |]; [| discriminate].
  destruct (negb (status_code resp =? 200)%Z).
  - intros H. inversion H as [H'].
    exact (raise_for_error_not_container_error _ _ _ H').
  - unfold MediaContainerStatus.model_validate.
    destruct data; try discriminate.
    destruct (assoc "id" fields) as [[] |]; try discriminate.
    destruct (assoc "status" fields) as [[] |]; try discriminate.
    match goal with
    | |- context [ContainerStatus_.of_value ?v] =>
        destruct (ContainerStatus_.of_value v); try discriminate
    end.
    destruct (assoc "error_message" fields) as [[] |]; discriminate.
Qed.

(** X1. The poller never hands back a snapshot that is not ready: what
    it returns is the snapshot decoded from the answer to its last
    call, and the status of that snapshot is FINISHED. *)
Theorem wait_returns_only_finished
    (self : Client) (container_id : string) (poll_interval max_wait_time : Q)
    (w : World) (s : MediaContainerStatus.t) :
  fst (_wait_for_container self container_id poll_interval max_wait_time w) = inr s ->
  status s = FINISHED
  /\ exists before last,
      calls_since w (snd (_wait_for_container self container_id
                            poll_interval max_wait_time w))
      = before ++ [(status_request self container_id, last)]
      /\ fetched last = inr s.
Proof.
  destruct (_wait_for_container _ _ _ _ w) as [r w'] eqn:Hrun.
  apply wait_for_container_shape in Hrun.
  destruct Hrun as (earlier & last & Hcalls & _ & Hset).
  cbn [fst snd]. intros ->. unfold settles in Hset.
  destruct (fetched last) as [e | s0] eqn:Hf; [discriminate |].
  destruct (status s0) eqn:Hst; try discriminate;
    try (destruct Hset; discriminate).
  inversion Hset; subst s0. split; [exact Hst |].
  exists (map (pair (status_request self container_id)) earlier), last.
  rewrite Hcalls, map_app. auto.
Qed.

Lemma wait_returns_only_finished_witness :
  status demo_finished_snapshot = FINISHED
  /\ exists before last,
      calls_since (fresh [demo_in_progress; demo_finished])
        (snd (_wait_for_container demo_client "container_123" 1 60
                (fresh [demo_in_progress; demo_finished])))
      = before ++ [(status_request demo_client "container_123", last)]
      /\ fetched last = inr demo_finished_snapshot.
Proof.
  apply (wait_returns_only_finished demo_client "container_123" 1 60
           (fresh [demo_in_progress; demo_finished]) demo_finished_snapshot).
  reflexivity.
Defined.

(** X2. A status call that fails, whether in the transport, with a body
    that is not JSON, with a status code other than 200 or in the
    decoding, ends the poller with that very error, and is its last
    call: the poller retries nothing. *)
Theorem failed_status_call_is_propagated
    (self : Client) (container_id : string) (poll_interval max_wait_time : Q)
    (w : World) (resp : option Response) (e : Exception) :
  In (status_request self container_id, resp)
     (calls_since w (snd (_wait_for_container self container_id
                            poll_interval max_wait_time w))) ->
  fetched resp = inl e ->
  fst (_wait_for_container self container_id poll_interval max_wait_time w) = inl e
  /\ exists before,
      calls_since w (snd (_wait_for_container self container_id
                            poll_interval max_wait_time w))
      = before ++ [(status_request self container_id, resp)].
Proof.
  intros Hin Hf.
  destruct (wait_for_container_stops_at self container_id poll_interval
              max_wait_time w resp Hin) as [Hset Hlast].
  - intros (s & Hs & _). rewrite Hf in Hs. discriminate.
  - unfold settles in Hset. rewrite Hf in Hset. auto.
Qed.

Lemma failed_status_call_is_propagated_witness :
  fst (_wait_for_container demo_client "container_123" 1 60
         (fresh [demo_in_progress; error_reply 500; demo_finished]))
  = inl (APIError ThreadsAPIError (JStr "Server error") 500 JNull JNull JNull)
  /\ exists before,
      calls_since (fresh [demo_in_progress; error_reply 500; demo_finished])
        (snd (_wait_for_container demo_client "container_123" 1 60
                (fresh [demo_in_progress; error_reply 500; demo_finished])))
      = before ++ [(status_request demo_client "container_123",
                    response (error_reply 500))].
Proof.
  apply (failed_status_call_is_propagated demo_client "container_123" 1 60
           (fresh [demo_in_progress; error_reply 500; demo_finished])
           (response (error_reply 500))
           (APIError ThreadsAPIError (JStr "Server error") 500 JNull JNull JNull)).
  - right; left; reflexivity.
  - reflexivity.
Defined.

Section Deadline.

Variable self : Client.
Variable container_id : string.
Variables poll_interval max_wait_time : Q.

Lemma wait_loop_timeout_is_late (start_time : Q) (fuel : nat) :
  forall (w : World) (w' : World) (st : ContainerStatus),
    _wait_loop fuel self container_id poll_interval max_wait_time start_time w
    = (inl (ContainerError (msg_not_ready max_wait_time st)), w') ->
    max_wait_time <= clock w' - start_time.
Proof.
  induction fuel as [| fuel IH]; intros w w' st Hrun; [discriminate Hrun |].
  rewrite wait_loop_S in Hrun. cbv zeta in Hrun.
  destruct (fetched (next_response w)) as [e | s] eqn:Hf.
  { inversion Hrun; subst. elim (fetched_not_container_error _ _ Hf). }
  destruct (is_ready s); [discriminate Hrun |].
  destruct (has_error s); [discriminate Hrun |].
  destruct (ContainerStatus_.eqb (status s) EXPIRED); [discriminate Hrun |].
  destruct (Qle_bool max_wait_time _) eqn:Hdl.
  { inversion Hrun; subst. apply Qle_bool_iff in Hdl. exact Hdl. }
  destruct (Qlt_bool poll_interval 0); [discriminate Hrun |].
  exact (IH _ _ _ Hrun).
Qed.

Lemma wait_loop_call_bound (start_time : Q) (fuel : nat) :
  0 <= poll_interval ->
  forall (w : World) (r : Result MediaContainerStatus.t) (w' : World) (e0 : Q),
    (List.length (pending w) < fuel)%nat ->
    Forall (fun reply => 0 <= latency reply) (pending w) ->
    e0 <= clock w - start_time ->
    _wait_loop fuel self container_id poll_interval max_wait_time start_time w = (r, w') ->
    exists l,
      trace w' = trace w ++ l
      /\ (1 <= List.length l)%nat
      /\ forall k, List.length l = S (S k) ->
                   e0 + inject_Z (Z.of_nat k) * poll_interval < max_wait_time.
Proof.
  intros Hpi. induction fuel as [| fuel IH]; intros w r w' e0 Hfuel Hlat He0 Hrun; [lia |].
  rewrite wait_loop_S in Hrun. cbv zeta in Hrun.
  assert (Hone : exists l,
             trace (after_call (status_request self container_id) w) = trace w ++ l
             /\ (1 <= List.length l)%nat
             /\ forall k, List.length l = S (S k) ->
                          e0 + inject_Z (Z.of_nat k) * poll_interval < max_wait_time).
  { exists [(status_request self container_id, next_response w)].
    split; [apply trace_after_call |]. split; [cbn; lia |].
    intros k Hk. discriminate Hk. }
  destruct (fetched (next_response w)) as [e | s] eqn:Hf;
    [inversion Hrun; subst; exact Hone |].
  destruct (is_ready s); [inversion Hrun; subst; exact Hone |].
  destruct (has_error s); [inversion Hrun; subst; exact Hone |].
  destruct (ContainerStatus_.eqb (status s) EXPIRED);
    [inversion Hrun; subst; exact Hone |].
  destruct (Qle_bool max_wait_time _) eqn:Hdl; [inversion Hrun; subst; exact Hone |].
  destruct (Qlt_bool poll_interval 0); [inversion Hrun; subst; exact Hone |].
  clear Hone. apply Qle_bool_false in Hdl.
  unfold next_response in Hf.
  destruct (pending w) as [| x rest] eqn:Hp; [discriminate Hf |].
  inversion Hlat as [| ? ? Hx Hrest]; subst.
  assert (Hclock : clock (after_call (status_request self container_id) w)
                   = clock w + latency x)
    by (unfold after_call; rewrite Hp; reflexivity).
  rewrite Hclock in Hdl.
  apply (IH _ _ _ (e0 + poll_interval)) in Hrun.
  - destruct Hrun as (l & Htr & Hlen & Hbound).
    cbn [slept trace] in Htr. rewrite trace_after_call in Htr.
    exists ((status_request self container_id, next_response w) :: l).
    split; [rewrite Htr, <- app_assoc; reflexivity |].
    split; [cbn; lia |].
    intros k Hk. cbn [List.length] in Hk. injection Hk as Hk.
    destruct k as [| k].
    + change (inject_Z (Z.of_nat 0)) with 0. lra.
    + specialize (Hbound k Hk).
      rewrite Nat2Z.inj_succ, <- Z.add_1_r, inject_Z_plus.
      change (inject_Z 1) with 1. lra.
  - cbn [slept pending]. rewrite pending_after_call, Hp. cbn in *. lia.
  - cbn [slept pending]. rewrite pending_after_call, Hp. exact Hrest.
  - cbn [slept clock]. rewrite Hclock. lra.
Qed.

End Deadline.

(** X3. The poller reports a timeout only once the deadline has passed:
    when it fails with "Container not ready after ...", at least
    [max_wait_time] seconds lie between the start of the poller and its
    end. *)
Theorem timeout_only_after_deadline
    (self : Client) (container_id : string) (poll_interval max_wait_time : Q)
    (w : World) (st : ContainerStatus) :
  fst (_wait_for_container self container_id poll_interval max_wait_time w)
  = inl (ContainerError (msg_not_ready max_wait_time st)) ->
  max_wait_time
  <= clock (snd (_wait_for_container self container_id poll_interval max_wait_time w))
     - clock w.
Proof.
  unfold _wait_for_container, bind, time_time.
  destruct (_wait_loop _ _ _ _ _ _ w) as [r w'] eqn:Hrun. cbn [fst snd].
  intros ->. exact (wait_loop_timeout_is_late _ _ _ _ _ _ _ _ _ Hrun).
Qed.

Lemma timeout_only_after_deadline_witness :
  1 # 2
  <= clock (snd (_wait_for_container demo_client "container_123" 1 (1 # 2)
                   (fresh [demo_in_progress; demo_in_progress])))
     - clock (fresh [demo_in_progress; demo_in_progress]).
Proof.
  apply (timeout_only_after_deadline demo_client "container_123" 1 (1 # 2)
           (fresh [demo_in_progress; demo_in_progress]) IN_PROGRESS).
  reflexivity.
Defined.

(** X4. The number of status calls is bounded by the deadline. When no
    call has a negative latency and [poll_interval] is not negative, a
    run of [k + 2] calls has slept [k + 1] times and
    [k * poll_interval < max_wait_time]; and a run always makes at least
    one call. *)
Theorem status_calls_are_bounded
    (self : Client) (container_id : string) (poll_interval max_wait_time : Q)
    (w : World) :
  0 <= poll_interval ->
  Forall (fun reply => 0 <= latency reply) (pending w) ->
  (1 <= List.length
          (calls_since w (snd (_wait_for_container self container_id
                                 poll_interval max_wait_time w))))%nat
  /\ forall k,
       List.length
         (calls_since w (snd (_wait_for_container self container_id
                                poll_interval max_wait_time w)))
       = S (S k) ->
       inject_Z (Z.of_nat k) * poll_interval < max_wait_time.
Proof.
  intros Hpi Hlat. unfold _wait_for_container, bind, time_time.
  destruct (_wait_loop _ _ _ _ _ _ w) as [r w'] eqn:Hrun. cbn [snd].
  destruct (wait_loop_call_bound self container_id poll_interval max_wait_time
              (clock w) (S (List.length (pending w))) Hpi w r w' 0)
    as (l & Htr & Hlen & Hbound);
    [lia | exact Hlat | lra | exact Hrun |].
  unfold calls_since. rewrite Htr, skipn_length_app. split; [exact Hlen |].
  intros k Hk. specialize (Hbound k Hk). lra.
Qed.

Lemma status_calls_are_bounded_witness :
  (1 <= List.length
          (calls_since (fresh [demo_in_progress; demo_in_progress; demo_in_progress])
             (snd (_wait_for_container demo_client "container_123" 1 (3 # 2)
                     (fresh [demo_in_progress; demo_in_progress; demo_in_progress])))))%nat
  /\ forall k,
       List.length
         (calls_since (fresh [demo_in_progress; demo_in_progress; demo_in_progress])
            (snd (_wait_for_container demo_client "container_123" 1 (3 # 2)
                    (fresh [demo_in_progress; demo_in_progress; demo_in_progress]))))
       = S (S k) ->
       inject_Z (Z.of_nat k) * 1 < 3 # 2.
Proof.
  apply (status_calls_are_bounded demo_client "container_123" 1 (3 # 2)
           (fresh [demo_in_progress; demo_in_progress; demo_in_progress])).
  - discriminate.
  - repeat constructor; discriminate.
Defined.

(* ------------------------------------------------------------------ *)
(** ** More on the orchestrator *)

Section OrchestratorMore.

Variable urlparse : string -> option ParseResult.
Variable Post_model_validate : json -> Result Post.t.
Variable self : Client.

(** X5. The calls of [create_and_publish] come in one fixed order: the
    container creation; then status calls for the created container,
    only when [wait_for_ready] is set and a video url was given; then
    at most one publish call, for that same container; then at most one
    fetch of the post, for the id the publish call returned. Nothing
    follows a failed creation, and no call is repeated as a retry. *)
Theorem create_and_publish_calls_in_order (user_id : string)
    (text image_url video_url reply_to_id : option string)
    (reply_control : option ReplyControl) (wait_for_ready : bool)
    (poll_interval max_wait_time : Q) (w : World) :
  calls_since w
    (snd (create_and_publish urlparse Post_model_validate self user_id
            text image_url video_url reply_to_id reply_control
            wait_for_ready poll_interval max_wait_time w)) = []
  \/ exists ps r0 container_id polls tail,
      calls_since w
        (snd (create_and_publish urlparse Post_model_validate self user_id
                text image_url video_url reply_to_id reply_control
                wait_for_ready poll_interval max_wait_time w))
      = (create_request user_id ps, r0)
          :: map (pair (status_request self container_id)) polls ++ tail
      /\ (polls <> [] -> wait_for_ready && truthy video_url = true)
      /\ (polls <> [] \/ tail <> [] ->
          created r0 = inr {| MediaContainer.id := container_id |})
      /\ (tail = []
          \/ exists rp,
              (tail = [(publish_request self user_id container_id, rp)]
               /\ exists e, published rp = inl e)
              \/ exists post_id rg,
                  tail = [(publish_request self user_id container_id, rp);
                          (post_request self post_id, rg)]
                  /\ published rp = inr post_id).
Proof.
  rewrite create_and_publish_eq.
  destruct (_validate_publish_params text image_url video_url);
    [left; apply calls_since_refl |].
  destruct (_validate_and_build_params _ _ _ _ _ _ _ _ _ _ _) as [e | ps];
    [left; apply calls_since_refl |].
  right. cbv zeta.
  set (w1 := after_call (create_request user_id ps) w).
  assert (Hsplit : forall w', extends w1 w' ->
            calls_since w w'
            = (create_request user_id ps, next_response w) :: calls_since w1 w').
  { intros w' Hext.
    destruct (calls_since_extends w w1 w' _ (trace_after_call _ w) Hext)
      as (l' & -> & ->). reflexivity. }
  assert (Hpub : forall (c : MediaContainer.t) w2,
            let tail := calls_since w2
                          (snd (publish Post_model_validate self user_id
                                  (MediaContainer.id c) true w2)) in
            tail <> []
            /\ exists rp,
                (tail = [(publish_request self user_id (MediaContainer.id c), rp)]
                 /\ exists e, published rp = inl e)
                \/ exists post_id rg,
                    tail = [(publish_request self user_id (MediaContainer.id c), rp);
                            (post_request self post_id, rg)]
                    /\ published rp = inr post_id).
  { intros c w2. cbv zeta. rewrite publish_calls. cbv zeta. cbn [negb].
    split; [discriminate |]. exists (next_response w2).
    destruct (published (next_response w2)) as [e | post_id] eqn:Hp.
    - left. split; [reflexivity | eauto].
    - right. eexists _, _. split; reflexivity. }
  exists ps, (next_response w).
  destruct (created (next_response w)) as [e | [cid]] eqn:Hc.
  { exists "", [], []. cbn [snd]. rewrite (Hsplit w1 (extends_refl w1)).
    rewrite calls_since_refl. split; [reflexivity |].
    split; [intros H; elim H; reflexivity |].
    split; [intros [H | H]; elim H; reflexivity | left; reflexivity]. }
  exists cid. cbn [MediaContainer.id].
  destruct (wait_for_ready && truthy video_url).
  - pose proof (wait_for_container_extends self cid poll_interval max_wait_time w1)
      as Hext.
    pose proof (wait_for_container_shape self cid poll_interval max_wait_time w1)
      as Hshape.
    destruct (_wait_for_container _ _ _ _ w1) as [[e | s'] w2]; cbn [fst snd] in *;
      destruct (Hshape _ _ eq_refl) as (earlier & last & Hcalls & _).
    + exists (earlier ++ [last]), []. rewrite (Hsplit w2 Hext), Hcalls, app_nil_r.
      split; [reflexivity |]. split; [reflexivity |].
      split; [reflexivity | left; reflexivity].
    + destruct (Hpub {| MediaContainer.id := cid |} w2) as [_ Htail].
      cbn [MediaContainer.id] in Htail.
      exists (earlier ++ [last]),
             (calls_since w2 (snd (publish Post_model_validate self user_id cid true w2))).
      assert (Hext' : extends w1
                        (snd (publish Post_model_validate self user_id cid true w2)))
        by (eapply extends_trans; [exact Hext | apply publish_extends]).
      rewrite (Hsplit _ Hext').
      destruct Hext as [l Hl].
      destruct (calls_since_extends w1 w2 _ l Hl
                  (publish_extends Post_model_validate self user_id cid true w2))
        as (l' & Hall & Hl').
      assert (Hl2 : calls_since w1 w2 = l)
        by (unfold calls_since; rewrite Hl; apply skipn_length_app).
      rewrite Hall, Hl', <- Hl2, Hcalls.
      split; [reflexivity |]. split; [reflexivity |].
      split; [reflexivity |]. right. rewrite <- Hl'. exact Htail.
  - destruct (Hpub {| MediaContainer.id := cid |} w1) as [_ Htail].
    cbn [MediaContainer.id] in Htail.
    exists [], (calls_since w1 (snd (publish Post_model_validate self user_id cid true w1))).
    rewrite (Hsplit _ (publish_extends _ _ _ _ _ _)).
    split; [reflexivity |].
    split; [intros H; elim H; reflexivity |].
    split; [reflexivity |]. right. exact Htail.
Qed.

Lemma reply_control_member_accepted (rc : ReplyControl) :
  validate_reply_control (Some (ReplyControl_.value rc)) = inr tt.
Proof. destruct rc; reflexivity. Qed.

Lemma text_params_built (user_id : string)
    (text image_url video_url : option string) (is_carousel_item : bool)
    (children : option (list string)) (reply_to_id : option string)
    (reply_control : option ReplyControl) :
  (forall t, text = Some t -> (len t <= 500)%Z) ->
  exists ps,
    _validate_and_build_params urlparse self user_id TEXT text image_url video_url
      is_carousel_item children reply_to_id reply_control = inr ps.
Proof.
  unfold _validate_and_build_params, validate_text_length, MAX_TEXT_LENGTH.
  intros H.
  assert (Hlen : match text with
                 | Some t => (500 <? len t)%Z = false
                 | None => True
                 end).
  { destruct text as [t |]; [| exact I]. apply Z.ltb_ge. apply H. reflexivity. }
  destruct text as [t |]; [rewrite Hlen |];
    (destruct reply_control as [rc |];
     [rewrite reply_control_member_accepted |]; cbn; eauto).
Qed.

(** X6. For a TEXT container the parameters are built unless the text
    is longer than 500 characters: the urls handed over are not
    looked at, the url parser is not asked, and no reply control can
    fail the validation. *)
Theorem text_container_fails_on_length_only (user_id : string)
    (text image_url video_url : option string) (is_carousel_item : bool)
    (children : option (list string)) (reply_to_id : option string)
    (reply_control : option ReplyControl) :
  (exists ps,
      _validate_and_build_params urlparse self user_id TEXT text image_url video_url
        is_carousel_item children reply_to_id reply_control = inr ps)
  <-> (forall t, text = Some t -> (len t <= 500)%Z).
Proof.
  split; [| apply text_params_built].
  unfold _validate_and_build_params, validate_text_length, MAX_TEXT_LENGTH.
  intros [ps H] t ->. destruct (500 <? len t)%Z eqn:E; [discriminate H |].
  apply Z.ltb_ge in E. exact E.
Qed.

(** X7. For a post without an image url and without a video url,
    [create_and_publish] stays off the network exactly when the text is
    missing, empty or longer than 500 characters; in every other case
    the container creation is sent. *)
Theorem text_post_reaches_the_network (user_id : string)
    (text image_url video_url reply_to_id : option string)
    (reply_control : option ReplyControl) (wait_for_ready : bool)
    (poll_interval max_wait_time : Q) (w : World) :
  truthy image_url = false ->
  truthy video_url = false ->
  calls_since w
    (snd (create_and_publish urlparse Post_model_validate self user_id
            text image_url video_url reply_to_id reply_control
            wait_for_ready poll_interval max_wait_time w)) = []
  <-> (truthy text = false \/ exists t, text = Some t /\ (500 < len t)%Z).
Proof.
  intros Hi Hv. split.
  - intros Hcalls.
    destruct (truthy text) eqn:Ht; [| left; reflexivity]. right.
    destruct text as [t |]; [| discriminate Ht]. exists t. split; [reflexivity |].
    destruct (Z.ltb_spec 500 (len t)) as [Hlt | Hle]; [exact Hlt | exfalso].
    destruct (text_params_built user_id (Some t) image_url video_url false None
                reply_to_id reply_control) as [ps Hps].
    { intros t' Ht'. inversion Ht'; subst t'. exact Hle. }
    rewrite create_and_publish_eq in Hcalls.
    unfold _validate_publish_params, validate_text_length, MAX_TEXT_LENGTH in Hcalls.
    replace (500 <? len t)%Z with false in Hcalls by (symmetry; apply Z.ltb_ge; exact Hle).
    rewrite Ht in Hcalls. cbn [orb negb] in Hcalls.
    unfold _determine_media_type in Hcalls. rewrite Hv, Hi, Hps in Hcalls.
    cbv zeta in Hcalls.
    set (w1 := after_call (create_request user_id ps) w) in *.
    assert (Hne : forall w', extends w1 w' -> calls_since w w' <> []).
    { intros w' Hext.
      destruct (calls_since_extends w w1 w' _ (trace_after_call _ w) Hext)
        as (l' & -> & _). discriminate. }
    destruct (created (next_response w)) as [e | container].
    + exact (Hne _ (extends_refl w1) Hcalls).
    + rewrite andb_false_r in Hcalls.
      exact (Hne _ (publish_extends _ _ _ _ _ _) Hcalls).
  - intros H. rewrite create_and_publish_eq.
    unfold _validate_publish_params, validate_text_length, MAX_TEXT_LENGTH.
    destruct H as [Ht | (t & -> & Hlen)].
    + rewrite Ht, Hi, Hv. cbn [orb negb].
      destruct text as [t |]; [| apply calls_since_refl].
      destruct (500 <? len t)%Z; apply calls_since_refl.
    + apply Z.ltb_lt in Hlen. rewrite Hlen. apply calls_since_refl.
Qed.

(** X8. [publish] raises only when the publish call itself failed, or
    when the id it returned is not a string, which the [Post] model
    refuses, or, with [fetch_post] set, when the fetch of the post
    failed with an error that cannot be formatted for the log line of
    the handler: then the [TypeError] of the formatting escapes. No
    error of the fetch itself ever surfaces. *)
Theorem publish_raises_only_for_publish_call (user_id container_id : string)
    (fetch_post : bool) (w : World) (e : Exception) :
  fst (publish Post_model_validate self user_id container_id fetch_post w) = inl e ->
  published (next_response w) = inl e
  \/ (exists post_id,
        published (next_response w) = inr post_id
        /\ (forall s, post_id <> JStr s)
        /\ e = PydanticValidationError)
  \/ (fetch_post = true
       /\ e = TypeError
       /\ exists post_id e',
            published (next_response w) = inr post_id
            /\ fst (get Post_model_validate self post_id None
                      (after_call (publish_request self user_id container_id) w))
               = inl e'
            /\ str_raises e' = true).
Proof.
  rewrite publish_eq. cbv zeta.
  destruct (published (next_response w)) as [e0 | post_id];
    [cbn; intros H; inversion H; auto |].
  assert (Hmin : Post.minimal post_id = inl e ->
                 exists post_id0,
                   @inr Exception json post_id = inr post_id0
                   /\ (forall s, post_id0 <> JStr s)
                   /\ e = PydanticValidationError).
  { intros Hmin. exists post_id. split; [reflexivity |].
    unfold Post.minimal in Hmin.
    destruct post_id; inversion Hmin; split; try reflexivity; discriminate. }
  destruct fetch_post; cbn [negb]; [| intros H; right; left; exact (Hmin H)].
  destruct (post_fetched _ _) as [e' | p] eqn:Hget; [| discriminate].
  cbn [fst]. destruct (str_raises e') eqn:Hstr.
  - intros H. inversion H. right; right.
    split; [reflexivity |]. split; [reflexivity |].
    exists post_id, e'. split; [reflexivity |].
    split; [rewrite get_eq; cbn [fst]; exact Hget | exact Hstr].
  - intros H. right; left. exact (Hmin H).
Qed.

(** X9. With [fetch_post] unset, [publish] makes the publish call and no
    other: the post is never fetched, whatever the answer. *)
Theorem publish_without_fetch_makes_one_call (user_id container_id : string)
    (w : World) :
  calls_since w (snd (publish Post_model_validate self user_id container_id false w))
  = [(publish_request self user_id container_id, next_response w)].
Proof.
  rewrite publish_calls. cbv zeta. cbn [negb].
  destruct (published (next_response w)); reflexivity.
Qed.

End OrchestratorMore.

Lemma text_post_reaches_the_network_witness :
  calls_since (fresh [demo_container_reply; demo_publish_reply])
    (snd (create_and_publish demo_urlparse demo_validate demo_client "user_123"
            (Some "Hello") None None None None true 1 60
            (fresh [demo_container_reply; demo_publish_reply]))) = []
  <-> (truthy (Some "Hello") = false
       \/ exists t, Some "Hello" = Some t /\ (500 < len t)%Z).
Proof.
  apply (text_post_reaches_the_network demo_urlparse demo_validate demo_client
           "user_123" (Some "Hello") None None None None true 1 60
           (fresh [demo_container_reply; demo_publish_reply])); reflexivity.
Defined.

Lemma publish_raises_only_for_publish_call_witness :
  published (next_response (fresh [demo_publish_reply; demo_null_message_reply]))
  = inl TypeError
  \/ (exists post_id,
        published (next_response (fresh [demo_publish_reply; demo_null_message_reply]))
        = inr post_id
        /\ (forall s, post_id <> JStr s)
        /\ TypeError = PydanticValidationError)
  \/ (true = true
       /\ TypeError = TypeError
       /\ exists post_id e',
            published (next_response (fresh [demo_publish_reply; demo_null_message_reply]))
            = inr post_id
            /\ fst (get demo_validate demo_client post_id None
                      (after_call (publish_request demo_client "user_123" "container_789")
                         (fresh [demo_publish_reply; demo_null_message_reply])))
               = inl e'
            /\ str_raises e' = true).
Proof.
  apply (publish_raises_only_for_publish_call demo_validate demo_client
           "user_123" "container_789" true
           (fresh [demo_publish_reply; demo_null_message_reply])).
  reflexivity.
Defined.

(* ------------------------------------------------------------------ *)
(** ** Validators, error classes, models *)

Lemma mem_In (s : string) (l : list string) : mem s l = true <-> In s l.
Proof.
  unfold mem. rewrite existsb_exists. split.
  - intros (x & Hx & He). apply String.eqb_eq in He. subst x. exact Hx.
  - intros H. exists s. split; [exact H | apply String.eqb_refl].
Qed.

Lemma MediaType_eqb_eq (a b : MediaType) : MediaType_.eqb a b = true <-> a = b.
Proof. destruct a, b; vm_compute; split; congruence. Qed.

(** X10. [validate_reply_control] accepts a string exactly when it is
    the value of a member of [ReplyControl]; so the check the media
    client runs on a member's value can never fail. *)
Theorem reply_control_accepted_iff_member (s : string) :
  validate_reply_control (Some s) = inr tt
  <-> exists rc, ReplyControl_.value rc = s.
Proof.
  unfold validate_reply_control. split.
  - destruct (mem s _) eqn:E; [| discriminate]. intros _.
    apply mem_In in E. cbn in E.
    destruct E as [<- | [<- | [<- | []]]];
      [exists EVERYONE | exists ACCOUNTS_YOU_FOLLOW | exists MENTIONED_ONLY];
      reflexivity.
  - intros [rc <-]. destruct rc; reflexivity.
Qed.

(** X11. A media url that [validate_media_url] accepts parses to a
    scheme [http] or [https] and a network location that is not empty;
    and its extension, lower-cased, is either missing or one of the
    supported formats of the media type asked for. *)
Theorem accepted_media_url_is_well_formed
    (urlparse : string -> option ParseResult) (u : string) (media_type : MediaType) :
  validate_media_url urlparse (Some u) media_type = inr tt ->
  exists p,
    urlparse u = Some p
    /\ (scheme p = "http" \/ scheme p = "https")
    /\ netloc p <> ""
    /\ (media_type = IMAGE ->
        extension_of p = "" \/ In (extension_of p) SUPPORTED_IMAGE_FORMATS)
    /\ (media_type = VIDEO ->
        extension_of p = "" \/ In (extension_of p) SUPPORTED_VIDEO_FORMATS).
Proof.
  unfold validate_media_url. fold extension_of.
  destruct (urlparse u) as [p |]; [| discriminate].
  fold (extension_of p).
  destruct (scheme p =? "") eqn:Hs; [discriminate |].
  destruct (netloc p =? "") eqn:Hn; [discriminate |]. cbn [orb].
  destruct (mem (scheme p) ["http"; "https"]) eqn:Hm; [| discriminate]. cbn [negb].
  intros H. exists p. split; [reflexivity |].
  apply mem_In in Hm. cbn in Hm.
  split; [destruct Hm as [<- | [<- | []]]; auto |].
  split; [intros E; rewrite E in Hn; discriminate Hn |].
  split; intros ->; cbn [MediaType_.eqb MediaType_.value] in H.
  - change (MediaType_.eqb IMAGE IMAGE) with true in H. cbn [andb] in H.
    destruct (extension_of p =? "") eqn:He;
      [left; apply String.eqb_eq; exact He | right].
    destruct (mem (extension_of p) SUPPORTED_IMAGE_FORMATS) eqn:Hi;
      [apply mem_In; exact Hi | discriminate H].
  - change (MediaType_.eqb VIDEO IMAGE) with false in H.
    change (MediaType_.eqb VIDEO VIDEO) with true in H. cbn [andb] in H.
    destruct (extension_of p =? "") eqn:He;
      [left; apply String.eqb_eq; exact He | right].
    destruct (mem (extension_of p) SUPPORTED_VIDEO_FORMATS) eqn:Hi;
      [apply mem_In; exact Hi | discriminate H].
Qed.

Lemma accepted_media_url_is_well_formed_witness :
  exists p,
    demo_urlparse "https://example.com/video.mp4" = Some p
    /\ (scheme p = "http" \/ scheme p = "https")
    /\ netloc p <> ""
    /\ (VIDEO = IMAGE ->
        extension_of p = "" \/ In (extension_of p) SUPPORTED_IMAGE_FORMATS)
    /\ (VIDEO = VIDEO ->
        extension_of p = "" \/ In (extension_of p) SUPPORTED_VIDEO_FORMATS).
Proof.
  apply (accepted_media_url_is_well_formed demo_urlparse
           "https://example.com/video.mp4" VIDEO).
  reflexivity.
Defined.

(** X12. What [raise_for_error] raises, case by case. A body that is
    not an object, or whose ["error"] entry is not an object, gives
    [AttributeError]. A body without an ["error"] entry gives an API
    error with the message "Unknown error", the status code it was
    given, no error code, and the class of the status alone. An
    ["error"] object gives an API error with its entries (the message
    defaulting to "Unknown error", the others to [None]) and the status
    code; the class is the authentication class exactly for status 401
    or the codes 190 and 102, the not-found class only for status 404,
    the base class only when neither the status nor the code names
    another, and the class of the status when the code names none. *)
Theorem raise_for_error_classes (data : json) (code : Z) :
  ((forall fields, data <> JObj fields) ->
   raise_for_error data code = AttributeError)
  /\ (forall fields, data = JObj fields ->
      (assoc "error" fields = None ->
       raise_for_error data code
       = APIError (status_class code) (JStr "Unknown error") code JNull JNull JNull)
      /\ (forall err, assoc "error" fields = Some err ->
          (forall fs, err <> JObj fs) ->
          raise_for_error data code = AttributeError)
      /\ (forall fs, assoc "error" fields = Some (JObj fs) ->
          exists cls,
            raise_for_error data code
            = APIError cls (entry_or (JStr "Unknown error") "message" fs) code
                (entry_or JNull "code" fs) (entry_or JNull "error_subcode" fs)
                (entry_or JNull "fbtrace_id" fs)
            /\ (cls = AuthenticationError
                <-> code = 401%Z
                    \/ code_in (entry_or JNull "code" fs) [190; 102]%Z = true)
            /\ (cls = NotFoundError -> code = 404%Z)
            /\ (cls = ThreadsAPIError ->
                code <> 401%Z /\ code <> 403%Z /\ code <> 429%Z /\ code <> 404%Z
                /\ code_in (entry_or JNull "code" fs)
                     [190; 102; 10; 200; 294; 4; 17; 32; 613]%Z = false)
            /\ (code_in (entry_or JNull "code" fs)
                  [190; 102; 10; 200; 294; 4; 17; 32; 613]%Z = false ->
                cls = status_class code))).
Proof.
  assert (Hsplit : forall ec : json,
             code_in ec [190; 102; 10; 200; 294; 4; 17; 32; 613]%Z
             = code_in ec [190; 102]%Z || code_in ec [10; 200; 294]%Z
               || code_in ec [4; 17; 32; 613]%Z).
  { intros ec. destruct ec; try reflexivity; cbn [code_in existsb];
      rewrite ?orb_false_r, ?orb_assoc; reflexivity. }
  assert (Hcls : forall ec : json,
             let cls :=
               if (code =? 401)%Z || code_in ec [190; 102]%Z then AuthenticationError
               else if (code =? 403)%Z || code_in ec [10; 200; 294]%Z
                    then AuthorizationError
               else if (code =? 429)%Z || code_in ec [4; 17; 32; 613]%Z
                    then RateLimitError
               else if (code =? 404)%Z then NotFoundError
               else ThreadsAPIError in
             (cls = AuthenticationError
              <-> code = 401%Z \/ code_in ec [190; 102]%Z = true)
             /\ (cls = NotFoundError -> code = 404%Z)
             /\ (cls = ThreadsAPIError ->
                 code <> 401%Z /\ code <> 403%Z /\ code <> 429%Z /\ code <> 404%Z
                 /\ code_in ec [190; 102; 10; 200; 294; 4; 17; 32; 613]%Z = false)
             /\ (code_in ec [190; 102; 10; 200; 294; 4; 17; 32; 613]%Z = false ->
                 cls = status_class code)).
  { intros ec. cbv zeta. rewrite (Hsplit ec). unfold status_class.
    destruct (Z.eqb_spec code 401) as [E1 | E1]; cbn [orb].
    { repeat split; try discriminate; auto. }
    destruct (code_in ec [190; 102]%Z); cbn [orb].
    { repeat split; try discriminate; auto. }
    destruct (Z.eqb_spec code 403) as [E2 | E2]; cbn [orb].
    { repeat split; try discriminate; intros [H | H]; [contradiction | discriminate]. }
    destruct (code_in ec [10; 200; 294]%Z); cbn [orb].
    { repeat split; try discriminate; intros [H | H]; [contradiction | discriminate]. }
    destruct (Z.eqb_spec code 429) as [E3 | E3]; cbn [orb].
    { repeat split; try discriminate; intros [H | H]; [contradiction | discriminate]. }
    destruct (code_in ec [4; 17; 32; 613]%Z); cbn [orb].
    { repeat split; try discriminate; intros [H | H]; [contradiction | discriminate]. }
    destruct (Z.eqb_spec code 404) as [E4 | E4].
    { repeat split; try discriminate; auto; intros [H | H];
        [contradiction | discriminate]. }
    repeat split; try discriminate; auto; intros [H | H];
      [contradiction | discriminate]. }
  split.
  - intros Hno. unfold raise_for_error, dict_get.
    destruct data; try reflexivity. exfalso. exact (Hno fields eq_refl).
  - intros fields ->. unfold raise_for_error, dict_get. split; [| split].
    + intros ->. cbn [assoc code_in]. unfold status_class.
      rewrite !orb_false_r. reflexivity.
    + intros err -> Hno. destruct err; try reflexivity.
      exfalso. exact (Hno fields0 eq_refl).
    + intros fs ->. unfold entry_or.
      destruct (assoc "message" fs), (assoc "code" fs),
               (assoc "error_subcode" fs), (assoc "fbtrace_id" fs);
        (eexists; split; [reflexivity |];
         match goal with
         | |- context [code_in ?ec [190; 102]%Z] => exact (Hcls ec)
         end).
Qed.

Lemma raise_for_error_classes_witness :
  raise_for_error (JObj [("error", JObj demo_error_fields)]) 400
  = APIError AuthenticationError (JStr "Session expired") 400 (JNum 190) JNull JNull.
Proof.
  destruct (raise_for_error_classes (JObj [("error", JObj demo_error_fields)]) 400)
    as [_ H].
  destruct (H [("error", JObj demo_error_fields)] eq_refl) as (_ & _ & Hobj).
  destruct (Hobj demo_error_fields eq_refl) as (cls & Heq & Hauth & _).
  rewrite Heq. replace cls with AuthenticationError; [reflexivity |].
  symmetry. apply Hauth. right. reflexivity.
Defined.

Lemma of_value_value (st : ContainerStatus) :
  ContainerStatus_.of_value (ContainerStatus_.value st) = Some st.
Proof. destruct st; reflexivity. Qed.

(** X13. Looking a container status up by its value and taking the
    value of a status are inverse to each other: every member is found
    under its own value, and a string under which a member is found is
    that member's value, letter for letter. *)
Theorem container_status_round_trip (st : ContainerStatus) (s : string) :
  ContainerStatus_.of_value (ContainerStatus_.value st) = Some st
  /\ (ContainerStatus_.of_value s = Some st -> ContainerStatus_.value st = s).
Proof.
  split; [apply of_value_value |].
  unfold ContainerStatus_.of_value. intros H.
  apply find_some in H. destruct H as [_ H]. apply String.eqb_eq in H. exact H.
Qed.

Lemma container_status_round_trip_witness :
  ContainerStatus_.of_value (ContainerStatus_.value IN_PROGRESS) = Some IN_PROGRESS
  /\ (ContainerStatus_.of_value "IN_PROGRESS" = Some IN_PROGRESS ->
      ContainerStatus_.value IN_PROGRESS = "IN_PROGRESS").
Proof. exact (container_status_round_trip IN_PROGRESS "IN_PROGRESS"). Defined.

(** X14. The status call decodes what the endpoint encodes. Answered
    with status 200 and an object holding the id, the status value and
    the error message of a snapshot, in that order and followed by any
    other entries, [get_container_status] returns that snapshot after
    exactly one call. *)
Theorem status_call_round_trip (self : Client) (container_id : string) (w : World)
    (resp : Response) (s : MediaContainerStatus.t) (others : list (string * json)) :
  next_response w = Some resp ->
  status_code resp = 200%Z ->
  body resp = Some (JObj (snapshot_fields s ++ others)) ->
  fst (get_container_status self container_id w) = inr s
  /\ calls_since w (snd (get_container_status self container_id w))
     = [(status_request self container_id, Some resp)].
Proof.
  intros Hnr Hcode Hbody. rewrite get_container_status_eq. cbn [fst snd]. split.
  - rewrite Hnr. unfold fetched, Response_json. rewrite Hbody, Hcode. cbn [negb Z.eqb].
    destruct s as [i st em]. unfold snapshot_fields, MediaContainerStatus.model_validate.
    cbn [MediaContainerStatus.id MediaContainerStatus.status
         MediaContainerStatus.error_message app assoc String.eqb Ascii.eqb Bool.eqb].
    rewrite of_value_value.
    destruct em; reflexivity.
  - unfold calls_since. rewrite trace_after_call, skipn_length_app, Hnr. reflexivity.
Qed.

Lemma status_call_round_trip_witness :
  fst (get_container_status demo_client "container_123"
         (fresh [ok_reply (JObj (snapshot_fields demo_error_snapshot
                                   ++ [("extra", JBool true)]))]))
  = inr demo_error_snapshot
  /\ calls_since
       (fresh [ok_reply (JObj (snapshot_fields demo_error_snapshot
                                 ++ [("extra", JBool true)]))])
       (snd (get_container_status demo_client "container_123"
               (fresh [ok_reply (JObj (snapshot_fields demo_error_snapshot
                                         ++ [("extra", JBool true)]))])))
     = [(status_request demo_client "container_123",
         Some {| status_code := 200;
                 body := Some (JObj (snapshot_fields demo_error_snapshot
                                       ++ [("extra", JBool true)])) |})].
Proof.
  apply (status_call_round_trip demo_client "container_123"
           (fresh [ok_reply (JObj (snapshot_fields demo_error_snapshot
                                     ++ [("extra", JBool true)]))])
           {| status_code := 200;
              body := Some (JObj (snapshot_fields demo_error_snapshot
                                    ++ [("extra", JBool true)])) |}
           demo_error_snapshot [("extra", JBool true)]); reflexivity.
Defined.

Lemma assoc_dict_set (key k : string) (v : json) (d : list (string * json)) :
  assoc k (dict_set key v d) = if key =? k then Some v else assoc k d.
Proof.
  induction d as [| [k0 old] rest IH]; cbn [dict_set assoc].
  - destruct (key =? k); reflexivity.
  - destruct (String.eqb_spec k0 key) as [-> | Hne]; cbn [assoc].
    + destruct (key =? k); reflexivity.
    + destruct (String.eqb_spec k0 k) as [-> | Hne'].
      * destruct (String.eqb_spec key k) as [-> | _]; [contradiction | reflexivity].
      * exact IH.
Qed.

Lemma keys_dict_set (key : string) (v : json) (d : list (string * json)) :
  NoDup (map fst d) ->
  NoDup (map fst (dict_set key v d))
  /\ (forall x, In x (map fst (dict_set key v d)) -> x = key \/ In x (map fst d)).
Proof.
  induction d as [| [k0 old] rest IH]; cbn [dict_set map fst].
  - intros _. split; [constructor; [intros [] | constructor] |].
    intros x [<- | []]. left; reflexivity.
  - intros Hnd. inversion Hnd as [| ? ? Hnot Hrest]; subst.
    destruct (String.eqb_spec k0 key) as [-> | Hne]; cbn [map fst].
    + split; [exact Hnd | intros x Hx; right; exact Hx].
    + destruct (IH Hrest) as [Hnd' Hin]. split.
      * constructor; [| exact Hnd'].
        intros Hx. destruct (Hin k0 Hx) as [E | Hx']; [congruence | contradiction].
      * intros x [<- | Hx]; [right; left; reflexivity |].
        destruct (Hin x Hx) as [E | Hx']; [left; exact E | right; right; exact Hx'].
Qed.

Lemma assoc_not_in {A : Type} (k : string) (d : list (string * A)) :
  ~ In k (map fst d) -> assoc k d = None.
Proof.
  induction d as [| [k0 v] rest IH]; [reflexivity |]. cbn [map fst In assoc].
  intros Hnot. destruct (String.eqb_spec k0 k) as [-> | _].
  - exfalso. apply Hnot. left; reflexivity.
  - apply IH. intros H. apply Hnot. right; exact H.
Qed.

Lemma dict_update_spec (extra : list (string * option json)) :
  NoDup (map fst extra) ->
  forall (d : list (string * json)) (k : string),
    NoDup (map fst d) ->
    assoc k (dict_update d extra)
    = match assoc k extra with
      | Some (Some v) => Some v
      | _ => assoc k d
      end
    /\ NoDup (map fst (dict_update d extra)).
Proof.
  induction extra as [| [k0 [v |]] rest IH]; intros Hnd d k Hd.
  - split; [reflexivity | exact Hd].
  - inversion Hnd as [| ? ? Hnot Hrest]; subst. cbn [dict_update assoc].
    destruct (IH Hrest (dict_set k0 v d) k (proj1 (keys_dict_set k0 v d Hd)))
      as [Hk Hnd']. split; [| exact Hnd'].
    rewrite Hk, assoc_dict_set.
    destruct (String.eqb_spec k0 k) as [-> | _]; [| reflexivity].
    rewrite (assoc_not_in k rest Hnot). reflexivity.
  - inversion Hnd as [| ? ? Hnot Hrest]; subst. cbn [dict_update assoc].
    destruct (IH Hrest d k Hd) as [Hk Hnd']. split; [| exact Hnd'].
    rewrite Hk.
    destruct (String.eqb_spec k0 k) as [-> | _]; [| reflexivity].
    rewrite (assoc_not_in k rest Hnot). reflexivity.
Qed.

(** X15. The parameters of a request are a dict: no name occurs twice.
    Under each name they hold the value of the keyword argument of that
    name when it was given one; otherwise the client's access token
    under ["access_token"] and nothing under any other name. So an
    argument left at [None] is not sent, nothing else is added, and a
    keyword argument named [access_token] replaces the client's token.
    The keyword arguments are themselves a dict: each name occurs
    once. *)
Theorem get_params_sends_what_is_set (self : Client)
    (extra : list (string * option json)) (k : string) :
  NoDup (map fst extra) ->
  assoc k (_get_params self extra)
  = match assoc k extra with
    | Some (Some v) => Some v
    | _ => if k =? "access_token" then Some (JStr (access_token self)) else None
    end
  /\ NoDup (map fst (_get_params self extra)).
Proof.
  intros Hnd. unfold _get_params.
  assert (Hd : NoDup (map fst [("access_token", JStr (access_token self))])).
  { constructor; [intros [] | constructor]. }
  destruct (dict_update_spec extra Hnd _ k Hd) as [Hk Hnd'].
  split; [| exact Hnd']. rewrite Hk. cbn [assoc].
  rewrite (String.eqb_sym "access_token" k). reflexivity.
Qed.

Lemma get_params_sends_what_is_set_witness :
  assoc "access_token" (_get_params demo_client demo_extra) = Some (JStr "other_token")
  /\ NoDup (map fst (_get_params demo_client demo_extra)).
Proof.
  apply (get_params_sends_what_is_set demo_client demo_extra "access_token").
  repeat constructor; cbn; intuition discriminate.
Defined.

(* ------------------------------------------------------------------ *)
(** ** More on the rate limiter *)

Module RateLimiterMore.

Import RateLimiter.

Lemma popleft_split (cutoff : Q) (ts : list Q) :
  exists dropped,
    ts = dropped ++ popleft_while_old cutoff ts
    /\ Forall (fun t => t < cutoff) dropped.
Proof.
  induction ts as [| a l (dropped & Hl & Hd)]; [exists []; split; [reflexivity | constructor] |].
  cbn. destruct (Qlt_bool a cutoff) eqn:E.
  - apply Qlt_bool_true in E. exists (a :: dropped). split.
    + cbn. rewrite <- Hl. reflexivity.
    + constructor; assumption.
  - exists []. split; [reflexivity | constructor].
Qed.

Lemma popleft_shorter (cutoff : Q) (ts : list Q) :
  (List.length (popleft_while_old cutoff ts) <= List.length ts)%nat.
Proof.
  induction ts as [| a l IH]; cbn; [lia |].
  destruct (Qlt_bool a cutoff); cbn; lia.
Qed.

Lemma popleft_snoc (cutoff now : Q) (ts : list Q) :
  cutoff <= now ->
  popleft_while_old cutoff (ts ++ [now]) = popleft_while_old cutoff ts ++ [now].
Proof.
  intros H. induction ts as [| a l IH]; cbn.
  - apply Qlt_bool_false in H. rewrite H. reflexivity.
  - destruct (Qlt_bool a cutoff); [exact IH | reflexivity].
Qed.

Lemma popleft_popleft (c1 c2 : Q) (ts : list Q) :
  c1 <= c2 ->
  popleft_while_old c2 (popleft_while_old c1 ts) = popleft_while_old c2 ts.
Proof.
  intros H. induction ts as [| a l IH]; cbn; [reflexivity |].
  destruct (Qlt_bool a c1) eqn:E1.
  - apply Qlt_bool_true in E1.
    assert (E2 : Qlt_bool a c2 = true) by (apply Qlt_bool_true; lra).
    rewrite E2. exact IH.
  - reflexivity.
Qed.

(** X16. Pruning only ever takes expired timestamps, and only from the
    old end: the timestamps before a pruning are the ones it dropped,
    each older than [now - window_seconds], followed by the ones it
    kept, in their order; the limits are left alone. This holds
    whatever the order of the timestamps. *)
Theorem pruning_drops_only_expired (self : t) (now : Q) :
  max_requests (_cleanup_old_timestamps self now) = max_requests self
  /\ window_seconds (_cleanup_old_timestamps self now) = window_seconds self
  /\ exists dropped,
      _timestamps self = dropped ++ _timestamps (_cleanup_old_timestamps self now)
      /\ Forall (fun ts => ts < now - window_seconds self) dropped.
Proof.
  split; [reflexivity |]. split; [reflexivity |]. cbn. apply popleft_split.
Qed.

(** X17. With a window that is not negative, a request recorded at the
    time of reading counts at once: [usage] read right after
    [record_request] is one more than [usage] read in its place. *)
Theorem recorded_request_counts (self : t) (now : Q) :
  0 <= window_seconds self ->
  fst (usage now (record_request now self)) = (fst (usage now self) + 1)%Z.
Proof.
  intros Hw. unfold usage, count, _cleanup_old_timestamps, record_request.
  cbn [fst _timestamps window_seconds max_requests].
  rewrite popleft_snoc by lra. rewrite length_app. cbn [List.length]. lia.
Qed.

Lemma recorded_request_counts_witness :
  fst (usage 5 (record_request 5 demo_limiter_used))
  = (fst (usage 5 demo_limiter_used) + 1)%Z.
Proof. apply (recorded_request_counts demo_limiter_used 5). discriminate. Defined.

(** X18. [can_proceed] and [remaining] agree: read at the same time,
    the first says yes exactly when the second is positive. *)
Theorem can_proceed_iff_remaining (self : t) (now : Q) :
  fst (can_proceed now self) = true <-> (0 < fst (remaining now self))%Z.
Proof.
  unfold can_proceed, remaining. cbn [fst]. rewrite Z.ltb_lt. lia.
Qed.

(** X19. [wait_if_needed] raises exactly when [max_requests] is zero or
    negative and no timestamp is left after the pruning: it then looks
    for the oldest timestamp of an empty deque. In every other case it
    returns the time it waited. *)
Theorem wait_if_needed_raises_iff (self : t) (now : Q) :
  (exists e, fst (wait_if_needed now self) = inl e)
  <-> ((max_requests self <= 0)%Z
       /\ _timestamps (_cleanup_old_timestamps self now) = []).
Proof.
  unfold wait_if_needed.
  set (pruned := _cleanup_old_timestamps self now).
  assert (Hmax : max_requests pruned = max_requests self) by reflexivity.
  unfold count. rewrite Hmax.
  destruct (Z.ltb_spec (Z.of_nat (List.length (_timestamps pruned))) (max_requests self))
    as [Hlt | Hge].
  - cbn [fst]. split; [intros [e He]; discriminate He |].
    intros [Hm He]. rewrite He in Hlt. cbn in Hlt. lia.
  - destruct (_timestamps pruned) as [| oldest rest] eqn:Hts.
    + cbn [fst]. split; [intros _; split; [cbn in Hge; lia | reflexivity] | eauto].
    + destruct (Qlt_bool 0 _); cbn [fst];
        (split; [intros [e He]; discriminate He | intros [_ He]; discriminate He]).
Qed.

(** X20. With a clock that never ran backwards and a window that is
    not negative, [wait_if_needed] never waits longer than the window:
    the time it returns lies between zero and [window_seconds]. *)
Theorem wait_is_within_window (self : t) (now waited : Q) :
  clock_kept now self ->
  0 <= window_seconds self ->
  fst (wait_if_needed now self) = inr waited ->
  0 <= waited /\ waited <= window_seconds self.
Proof.
  intros Hkept Hw. unfold wait_if_needed.
  pose proof (RateLimiterFacts.cleanup_clock_kept self now Hkept) as [_ Hle].
  set (pruned := _cleanup_old_timestamps self now) in *.
  assert (Hwin : window_seconds pruned = window_seconds self) by reflexivity.
  rewrite Hwin.
  destruct (count pruned <? max_requests pruned)%Z.
  - cbn [fst]. intros H. inversion H; subst waited. split; lra.
  - destruct (_timestamps pruned) as [| oldest rest]; [discriminate |].
    inversion Hle as [| ? ? Hold _]; subst.
    destruct (Qlt_bool 0 (oldest + window_seconds self - now)) eqn:Hpos;
      cbn [fst]; intros H; inversion H; subst waited.
    + apply Qlt_bool_true in Hpos. split; lra.
    + split; lra.
Qed.

Lemma wait_is_within_window_witness :
  0 <= 5 /\ 5 <= window_seconds demo_limiter_full.
Proof.
  apply (wait_is_within_window demo_limiter_full 5 5).
  - split; cbn.
    + split; [repeat constructor; discriminate | split; [constructor | exact I]].
    + repeat constructor; discriminate.
  - discriminate.
  - reflexivity.
Defined.

(** X21. [wait_if_needed] waits long enough. If the limiter held no
    more timestamps than [max_requests] when the wait was computed,
    then at every time later than the end of the wait [can_proceed]
    says yes. *)
Theorem wait_frees_a_slot (self : t) (now waited later : Q) :
  fst (wait_if_needed now self) = inr waited ->
  (count (snd (wait_if_needed now self)) <= max_requests self)%Z ->
  now + waited < later ->
  fst (can_proceed later (snd (wait_if_needed now self))) = true.
Proof.
  unfold wait_if_needed, can_proceed.
  set (pruned := _cleanup_old_timestamps self now).
  assert (Hmax : max_requests pruned = max_requests self) by reflexivity.
  assert (Hwin : window_seconds pruned = window_seconds self) by reflexivity.
  assert (Hshrink : forall st : t,
             (count (_cleanup_old_timestamps st later) <= count st)%Z).
  { intros st. unfold count, _cleanup_old_timestamps. cbn [_timestamps].
    pose proof (popleft_shorter (later - window_seconds st) (_timestamps st)). lia. }
  destruct (count pruned <? max_requests pruned)%Z eqn:Hcap.
  - cbn [fst snd]. intros _ _ _. apply Z.ltb_lt in Hcap. apply Z.ltb_lt.
    specialize (Hshrink pruned). cbn [max_requests _cleanup_old_timestamps]. lia.
  - destruct (_timestamps pruned) as [| oldest rest] eqn:Hts; [discriminate |].
    assert (Hgo : forall waited',
               oldest + window_seconds pruned - now <= waited' ->
               (count pruned <= max_requests self)%Z ->
               now + waited' < later ->
               (count (_cleanup_old_timestamps pruned later)
                <? max_requests (_cleanup_old_timestamps pruned later))%Z = true).
    { intros waited' Hwt Hcount Hlater. apply Z.ltb_lt.
      cbn [max_requests _cleanup_old_timestamps]. fold pruned.
      unfold count in *. cbn [_timestamps _cleanup_old_timestamps]. fold pruned.
      rewrite Hts in *. cbn [popleft_while_old].
      assert (Hold : Qlt_bool oldest (later - window_seconds pruned) = true)
        by (apply Qlt_bool_true; lra).
      rewrite Hold.
      pose proof (popleft_shorter (later - window_seconds pruned) rest).
      cbn [List.length] in Hcount. rewrite Hmax. lia. }
    destruct (Qlt_bool 0 (oldest + window_seconds pruned - now)) eqn:Hpos;
      cbn [fst snd]; intros H Hcount Hlater; inversion H; subst waited.
    + apply (Hgo (oldest + window_seconds pruned - now)); [lra | exact Hcount | exact Hlater].
    + apply Qlt_bool_false in Hpos. apply (Hgo 0); [lra | exact Hcount | exact Hlater].
Qed.

Lemma wait_frees_a_slot_witness :
  fst (can_proceed 11 (snd (wait_if_needed 5 demo_limiter_full))) = true.
Proof.
  apply (wait_frees_a_slot demo_limiter_full 5 5 11).
  - reflexivity.
  - discriminate.
  - reflexivity.
Defined.

(** X22. Pruning is lazy without loss: a read that was made earlier
    changes nothing for a later read. Reading [usage] at a later time
    from the limiter an earlier read left behind gives the count and
    the limiter that reading at the later time alone gives. *)
Theorem earlier_read_changes_nothing (self : t) (now later : Q) :
  now <= later ->
  usage later (snd (usage now self)) = usage later self.
Proof.
  intros H. unfold usage, count, _cleanup_old_timestamps.
  cbn [snd _timestamps window_seconds max_requests].
  rewrite popleft_popleft by lra. reflexivity.
Qed.

Lemma earlier_read_changes_nothing_witness :
  usage 12 (snd (usage 5 demo_limiter_full)) = usage 12 demo_limiter_full.
Proof. apply (earlier_read_changes_nothing demo_limiter_full 5 12). discriminate. Defined.

End RateLimiterMore.

(* ------------------------------------------------------------------ *)
(** ** Listing and deleting posts *)

Section ListingFacts.

Variable Post_model_validate : json -> Result Post.t.
Variable self : Client.

Lemma validate_posts_all (items : list json) (ps : list Post.t) :
  validate_posts Post_model_validate items = inr ps
  <-> Forall2 (fun item p => Post_model_validate item = inr p) items ps.
Proof.
  revert ps. induction items as [| item rest IH]; intros ps; cbn.
  - split; [intros H; inversion H; constructor | intros H; inversion H; reflexivity].
  - destruct (Post_model_validate item) as [e | p] eqn:Hp.
    + split; [discriminate | intros H; inversion H; congruence].
    + destruct (validate_posts Post_model_validate rest) as [e | ps'] eqn:Hrest.
      * split; [discriminate |]. intros H. inversion H as [| ? ? ? ? Hx Hr]; subst.
        apply IH in Hr. discriminate Hr.
      * split.
        -- intros H. inversion H; subst. constructor; [exact Hp |].
           apply IH. reflexivity.
        -- intros H. inversion H as [| ? ? ? ? Hx Hr]; subst.
           apply IH in Hr. inversion Hr; subst. congruence.
Qed.

(** X23. [get_user_posts] is all or nothing and keeps the order of the
    answer. Answered with status 200 and an object whose ["data"] entry
    is a list, it returns a list of posts exactly when every item of
    that list validates, and the posts are then the validated items,
    one for one and in order; a single item that does not validate
    fails the whole call. An object without a ["data"] entry gives the
    empty list. It makes one call either way. *)
Theorem get_user_posts_all_or_nothing (user_id : string)
    (since until : option string) (limit : option Z) (w : World)
    (resp : Response) (fields : list (string * json)) (items : list json) :
  next_response w = Some resp ->
  status_code resp = 200%Z ->
  body resp = Some (JObj fields) ->
  assoc "data" fields = Some (JArr items)
  \/ (assoc "data" fields = None /\ items = []) ->
  (forall ps,
      fst (get_user_posts Post_model_validate self user_id None since until limit w)
      = inr ps
      <-> Forall2 (fun item p => Post_model_validate item = inr p) items ps)
  /\ calls_since w
       (snd (get_user_posts Post_model_validate self user_id None since until limit w))
     = [(list_request self user_id since until limit, Some resp)].
Proof.
  intros Hnr Hcode Hbody Hdata.
  assert (Hrun : get_user_posts Post_model_validate self user_id None since until limit w
                 = (validate_posts Post_model_validate items,
                    after_call (list_request self user_id since until limit) w)).
  { unfold get_user_posts, bind at 1. rewrite http_request_eq.
    fold (list_request self user_id since until limit). rewrite Hnr.
    unfold bind at 1, lift at 1, Response_json. rewrite Hbody, Hcode.
    cbn [negb Z.eqb Pos.eqb]. unfold bind, lift, dict_get.
    destruct Hdata as [-> | [-> ->]]; reflexivity. }
  rewrite Hrun. cbn [fst snd]. split.
  - intros ps. apply validate_posts_all.
  - unfold calls_since. rewrite trace_after_call, skipn_length_app, Hnr. reflexivity.
Qed.

(** X24. [delete] makes one DELETE call that carries nothing but the
    access token. Answered with status 200 and an object, it returns
    the value found under ["success"], and [true] when the object has
    no such entry: it does not raise on an answer that says the post
    was not deleted. *)
Theorem delete_returns_success_entry (post_id : string) (w : World)
    (resp : Response) (fields : list (string * json)) :
  next_response w = Some resp ->
  status_code resp = 200%Z ->
  body resp = Some (JObj fields) ->
  fst (delete self post_id w)
  = inr (match assoc "success" fields with
         | Some v => v
         | None => JBool true
         end)
  /\ calls_since w (snd (delete self post_id w))
     = [(delete_request self post_id, Some resp)].
Proof.
  intros Hnr Hcode Hbody.
  assert (Hrun : delete self post_id w
                 = (inr (match assoc "success" fields with
                         | Some v => v
                         | None => JBool true
                         end),
                    after_call (delete_request self post_id) w)).
  { unfold delete, bind at 1. rewrite http_request_eq.
    change {| method := DELETE; url := [Lit "/"; Lit post_id];
              params := _get_params self [] |}
      with (delete_request self post_id).
    rewrite Hnr. unfold bind, lift, Response_json. rewrite Hbody, Hcode.
    cbn [negb Z.eqb Pos.eqb]. unfold dict_get.
    destruct (assoc "success" fields); reflexivity. }
  rewrite Hrun. cbn [fst snd]. split; [reflexivity |].
  unfold calls_since. rewrite trace_after_call, skipn_length_app, Hnr. reflexivity.
Qed.

End ListingFacts.

Lemma get_user_posts_all_or_nothing_witness :
  (forall ps,
      fst (get_user_posts demo_validate demo_client "user_123" None None None (Some 10%Z)
             (fresh [ok_reply (JObj [("data", JArr [demo_publish_body])])]))
      = inr ps
      <-> Forall2 (fun item p => demo_validate item = inr p) [demo_publish_body] ps)
  /\ calls_since (fresh [ok_reply (JObj [("data", JArr [demo_publish_body])])])
       (snd (get_user_posts demo_validate demo_client "user_123" None None None (Some 10%Z)
               (fresh [ok_reply (JObj [("data", JArr [demo_publish_body])])])))
     = [(list_request demo_client "user_123" None None (Some 10%Z),
         Some {| status_code := 200;
                 body := Some (JObj [("data", JArr [demo_publish_body])]) |})].
Proof.
  apply (get_user_posts_all_or_nothing demo_validate demo_client "user_123"
           None None (Some 10%Z)
           (fresh [ok_reply (JObj [("data", JArr [demo_publish_body])])])
           {| status_code := 200;
              body := Some (JObj [("data", JArr [demo_publish_body])]) |}
           [("data", JArr [demo_publish_body])] [demo_publish_body]);
    try reflexivity.
  left; reflexivity.
Defined.

Lemma delete_returns_success_entry_witness :
  fst (delete demo_client "post_456" (fresh [ok_reply (JObj [("success", JBool false)])]))
  = inr (match assoc "success" [("success", JBool false)] with
         | Some v => v
         | None => JBool true
         end)
  /\ calls_since (fresh [ok_reply (JObj [("success", JBool false)])])
       (snd (delete demo_client "post_456"
               (fresh [ok_reply (JObj [("success", JBool false)])])))
     = [(delete_request demo_client "post_456",
         Some {| status_code := 200;
                 body := Some (JObj [("success", JBool false)]) |})].
Proof.
  apply (delete_returns_success_entry demo_client "post_456"
           (fresh [ok_reply (JObj [("success", JBool false)])])
           {| status_code := 200; body := Some (JObj [("success", JBool false)]) |}
           [("success", JBool false)]); reflexivity.
Defined.

(* ------------------------------------------------------------------ *)
(** ** Pace of the poller, and what is published *)

Section Pace.

Variable self : Client.
Variable container_id : string.
Variables poll_interval max_wait_time : Q.

Lemma wait_loop_pace (start_time : Q) (fuel : nat) :
  0 <= poll_interval ->
  forall (w : World) (r : Result MediaContainerStatus.t) (w' : World),
    (List.length (pending w) < fuel)%nat ->
    Forall (fun reply => 0 <= latency reply) (pending w) ->
    _wait_loop fuel self container_id poll_interval max_wait_time start_time w = (r, w') ->
    exists l k,
      trace w' = trace w ++ l
      /\ List.length l = S k
      /\ inject_Z (Z.of_nat k) * poll_interval <= clock w' - clock w.
Proof.
  intros Hpi. induction fuel as [| fuel IH]; intros w r w' Hfuel Hlat Hrun; [lia |].
  rewrite wait_loop_S in Hrun. cbv zeta in Hrun.
  assert (Hstep : 0 <= clock (after_call (status_request self container_id) w) - clock w).
  { unfold after_call. destruct (pending w) as [| x rest]; cbn [clock]; [lra |].
    inversion Hlat; subst. lra. }
  assert (Hone : exists l k,
             trace (after_call (status_request self container_id) w) = trace w ++ l
             /\ List.length l = S k
             /\ inject_Z (Z.of_nat k) * poll_interval
                <= clock (after_call (status_request self container_id) w) - clock w).
  { exists [(status_request self container_id, next_response w)], 0%nat.
    split; [apply trace_after_call |]. split; [reflexivity |].
    change (inject_Z (Z.of_nat 0)) with 0. lra. }
  destruct (fetched (next_response w)) as [e | s] eqn:Hf;
    [inversion Hrun; subst; exact Hone |].
  destruct (is_ready s); [inversion Hrun; subst; exact Hone |].
  destruct (has_error s); [inversion Hrun; subst; exact Hone |].
  destruct (ContainerStatus_.eqb (status s) EXPIRED);
    [inversion Hrun; subst; exact Hone |].
  destruct (Qle_bool max_wait_time _); [inversion Hrun; subst; exact Hone |].
  destruct (Qlt_bool poll_interval 0); [inversion Hrun; subst; exact Hone |].
  clear Hone. apply IH in Hrun.
  - destruct Hrun as (l & k & Htr & Hlen & Hpace).
    cbn [slept trace clock] in Htr, Hpace. rewrite trace_after_call in Htr.
    exists ((status_request self container_id, next_response w) :: l), (S k).
    split; [rewrite Htr, <- app_assoc; reflexivity |].
    split; [cbn; rewrite Hlen; reflexivity |].
    rewrite Nat2Z.inj_succ, <- Z.add_1_r, inject_Z_plus.
    change (inject_Z 1) with 1. lra.
  - cbn [slept pending]. rewrite pending_after_call.
    unfold next_response in Hf.
    destruct (pending w); [discriminate Hf | cbn in *; lia].
  - cbn [slept pending]. rewrite pending_after_call.
    destruct (pending w); cbn; [constructor | inversion Hlat; assumption].
Qed.

End Pace.

(** X25. The poller keeps its pace. When no call has a negative latency
    and [poll_interval] is not negative, a run of [k + 1] status calls
    takes at least [k * poll_interval] seconds: two calls are never
    closer than one [poll_interval]. *)
Theorem status_calls_are_spaced
    (self : Client) (container_id : string) (poll_interval max_wait_time : Q)
    (w : World) :
  0 <= poll_interval ->
  Forall (fun reply => 0 <= latency reply) (pending w) ->
  exists k,
    List.length
      (calls_since w (snd (_wait_for_container self container_id
                             poll_interval max_wait_time w)))
    = S k
    /\ inject_Z (Z.of_nat k) * poll_interval
       <= clock (snd (_wait_for_container self container_id
                        poll_interval max_wait_time w))
          - clock w.
Proof.
  intros Hpi Hlat. unfold _wait_for_container, bind, time_time.
  destruct (_wait_loop _ _ _ _ _ _ w) as [r w'] eqn:Hrun. cbn [snd].
  destruct (wait_loop_pace self container_id poll_interval max_wait_time
              (clock w) (S (List.length (pending w))) Hpi w r w')
    as (l & k & Htr & Hlen & Hpace); [lia | exact Hlat | exact Hrun |].
  exists k. unfold calls_since. rewrite Htr, skipn_length_app. auto.
Qed.

Lemma status_calls_are_spaced_witness :
  exists k,
    List.length
      (calls_since (fresh [demo_in_progress; demo_in_progress; demo_finished])
         (snd (_wait_for_container demo_client "container_123" 1 60
                 (fresh [demo_in_progress; demo_in_progress; demo_finished]))))
    = S k
    /\ inject_Z (Z.of_nat k) * 1
       <= clock (snd (_wait_for_container demo_client "container_123" 1 60
                        (fresh [demo_in_progress; demo_in_progress; demo_finished])))
          - clock (fresh [demo_in_progress; demo_in_progress; demo_finished]).
Proof.
  apply (status_calls_are_spaced demo_client "container_123" 1 60
           (fresh [demo_in_progress; demo_in_progress; demo_finished])).
  - discriminate.
  - repeat constructor; discriminate.
Defined.

Section Published.

Variable urlparse : string -> option ParseResult.
Variable Post_model_validate : json -> Result Post.t.
Variable self : Client.

(** X26. When [create_and_publish] waits for the container, it
    publishes only what is ready: if [wait_for_ready] is set, a video
    url was given and a publish call was made, then a status call of
    the same run was answered with a FINISHED snapshot. *)
Theorem publish_waits_for_finished (user_id : string)
    (text image_url video_url reply_to_id : option string)
    (reply_control : option ReplyControl) (wait_for_ready : bool)
    (poll_interval max_wait_time : Q) (w : World)
    (call : Request * option Response) :
  wait_for_ready && truthy video_url = true ->
  In call (calls_since w
             (snd (create_and_publish urlparse Post_model_validate self user_id
                     text image_url video_url reply_to_id reply_control
                     wait_for_ready poll_interval max_wait_time w))) ->
  is_publish (fst call) ->
  exists container_id resp s,
    In (status_request self container_id, resp)
       (calls_since w
          (snd (create_and_publish urlparse Post_model_validate self user_id
                  text image_url video_url reply_to_id reply_control
                  wait_for_ready poll_interval max_wait_time w)))
    /\ fetched resp = inr s
    /\ status s = FINISHED.
Proof.
  intros Hwait Hin Hpub. rewrite create_and_publish_eq in *.
  destruct (_validate_publish_params text image_url video_url);
    [rewrite calls_since_refl in Hin; destruct Hin |].
  destruct (_validate_and_build_params _ _ _ _ _ _ _ _ _ _ _) as [e | ps];
    [rewrite calls_since_refl in Hin; destruct Hin |].
  cbv zeta in *.
  set (w1 := after_call (create_request user_id ps) w) in *.
  assert (Hsplit : forall w', extends w1 w' ->
            calls_since w w'
            = (create_request user_id ps, next_response w) :: calls_since w1 w').
  { intros w' Hext.
    destruct (calls_since_extends w w1 w' _ (trace_after_call _ w) Hext)
      as (l' & -> & ->). reflexivity. }
  destruct (created (next_response w)) as [e | container].
  { exfalso. cbn [snd] in Hin. rewrite (Hsplit w1 (extends_refl w1)) in Hin.
    rewrite calls_since_refl in Hin. destruct Hin as [<- | []].
    exact (create_request_not_publish _ _ Hpub). }
  rewrite Hwait in *.
  pose proof (wait_for_container_extends self (MediaContainer.id container)
                poll_interval max_wait_time w1) as Hext.
  pose proof (wait_for_container_shape self (MediaContainer.id container)
                poll_interval max_wait_time w1) as Hshape.
  destruct (_wait_for_container _ _ _ _ w1) as [[e | s'] w2]; cbn [fst snd] in *;
    destruct (Hshape _ _ eq_refl) as (earlier & last & Hcalls & _ & Hset).
  - exfalso. rewrite (Hsplit w2 Hext) in Hin.
    destruct Hin as [<- | Hin]; [exact (create_request_not_publish _ _ Hpub) |].
    rewrite Hcalls in Hin. apply in_map_iff in Hin. destruct Hin as (x & <- & _).
    exact (status_request_is_not_publish _ _ Hpub).
  - unfold settles in Hset.
    destruct (fetched last) as [e | s0] eqn:Hf; [discriminate Hset |].
    destruct (status s0) eqn:Hst; try discriminate Hset;
      try (destruct Hset; discriminate).
    exists (MediaContainer.id container), last, s0.
    split; [| split; [exact Hf | exact Hst]].
    assert (Hext' : extends w1
                      (snd (publish Post_model_validate self user_id
                              (MediaContainer.id container) true w2)))
      by (eapply extends_trans; [exact Hext | apply publish_extends]).
    rewrite (Hsplit _ Hext'). right.
    destruct Hext as [l Hl].
    destruct (calls_since_extends w1 w2 _ l Hl
                (publish_extends Post_model_validate self user_id
                   (MediaContainer.id container) true w2))
      as (l' & Hall & _).
    assert (Hl2 : calls_since w1 w2 = l)
      by (unfold calls_since; rewrite Hl; apply skipn_length_app).
    rewrite Hall, <- Hl2, Hcalls. apply in_or_app. left.
    apply in_map, in_or_app. right. left. reflexivity.
Qed.

(** X27. A text post is never empty. When the parameters of
    [create_and_publish] pass [_validate_publish_params] and resolve to
    the media type TEXT, the text is present, is not the empty string
    and has at most 500 characters. *)
Theorem text_post_has_text (text image_url video_url : option string) :
  _validate_publish_params text image_url video_url = inr tt ->
  _determine_media_type text image_url video_url = TEXT ->
  exists t, text = Some t /\ t <> "" /\ (len t <= 500)%Z.
Proof.
  unfold _validate_publish_params, _determine_media_type, validate_text_length,
    MAX_TEXT_LENGTH.
  destruct (truthy video_url); [discriminate |].
  destruct (truthy image_url); [discriminate |].
  destruct text as [t |]; [| discriminate].
  destruct (Z.ltb_spec 500 (len t)) as [Hlt | Hle]; [discriminate |].
  cbn [truthy orb]. rewrite !orb_false_r.
  destruct (t =? "") eqn:E; [discriminate |].
  intros _ _. exists t. split; [reflexivity |]. split; [| exact Hle].
  intros ->. discriminate E.
Qed.

End Published.

Lemma publish_waits_for_finished_witness :
  exists container_id resp s,
    In (status_request demo_client container_id, resp)
       (calls_since (fresh [demo_container_reply; demo_finished; demo_publish_reply])
          (snd (create_and_publish demo_urlparse demo_validate demo_client "user_123"
                  None None demo_video None None true 1 60
                  (fresh [demo_container_reply; demo_finished; demo_publish_reply]))))
    /\ fetched resp = inr s
    /\ status s = FINISHED.
Proof.
  apply (publish_waits_for_finished demo_urlparse demo_validate demo_client "user_123"
           None None demo_video None None true 1 60
           (fresh [demo_container_reply; demo_finished; demo_publish_reply])
           (publish_request demo_client "user_123" "container_123",
            response demo_publish_reply)).
  - reflexivity.
  - right; right; left; reflexivity.
  - split; [reflexivity | exists "user_123"; reflexivity].
Defined.

Lemma text_post_has_text_witness :
  exists t, Some "Hello" = Some t /\ t <> "" /\ (len t <= 500)%Z.
Proof.
  apply (text_post_has_text (Some "Hello") None None); reflexivity.
Defined.
